(** * halcon2coco_voc: Halcon annotations to Pascal VOC and COCO

    A shallow embedding of [halcon2coco_voc.py] and the properties of its
    two exporters.

    Modelling choices, all visible in the definitions below:
    - Python [str] is [string] (a sequence of bytes, UTF-8 for text outside
      ASCII); [str.lower] changes the letters A-Z only.  That decides the
      extension filter exactly: the bytes of a multi-byte UTF-8 sequence are
      never ASCII, and no character outside ASCII has a lower case made of
      the letters of [.png], [.jpg] or [.jpeg].
    - Python [int] is [Z]: unbounded, exact.  [int()] reads ASCII digits and
      white space; the interpreter's limit on the number of digits of a
      conversion is not modelled.
    - The file system is explicit state: a finite map from path strings to
      file contents, the directory listings [os.listdir] returns, and the set
      of paths that cannot be opened for writing.  Two paths name the same
      file when they are the same string.  A raised exception keeps the
      state reached so far, as in Python.
    - The libraries the script calls are modelled at their interface:
      [ET.parse] reads an element tree, [Image.open(..).size] a pair of
      dimensions, and a written document is stored as the tree, text or
      COCO record the script hands to the serializer.
    - [os.path] is [posixpath]. *)

From Stdlib Require Import ZArith Ascii String.
From stdpp Require Import gmap strings list fin_maps sorting.

Set Warnings "-clear-no-such-hyp".

(** ** Python strings *)

Module Str.

Definition ascii_lower (c : ascii) : ascii :=
  let n := N_of_ascii c in
  if ((65 <=? n) && (n <=? 90))%N then ascii_of_N (n + 32) else c.

(** [s.lower()] *)
Fixpoint lower (s : string) : string :=
  match s with
  | "" => ""
  | String c r => String (ascii_lower c) (lower r)
  end.

(** [s.startswith(p)] *)
Fixpoint startswith (s p : string) : bool :=
  match p, s with
  | "", _ => true
  | String a p', String b s' => bool_decide (a = b) && startswith s' p'
  | String _ _, "" => false
  end.

(** [s.endswith(suf)]: [s] is [suf], or what follows its first character
    ends with [suf]. *)
Fixpoint endswith (s suf : string) : bool :=
  bool_decide (s = suf) ||
  match s with
  | "" => false
  | String _ r => endswith r suf
  end.

(** [s.rfind(c)] for a one-character [c], counting from index [i]:
    the largest index of [c], or [-1]. *)
Fixpoint rfind_from (s : string) (c : ascii) (i : Z) : Z :=
  match s with
  | "" => (-1)%Z
  | String a r =>
      let k := rfind_from r c (i + 1) in
      if (0 <=? k)%Z then k else if bool_decide (a = c) then i else (-1)%Z
  end.

Definition rfind (s : string) (c : ascii) : Z := rfind_from s c 0.

(** [s[:n]] and [s[n:]] for [0 <= n]. *)
Fixpoint take (n : nat) (s : string) : string :=
  match n, s with
  | S n', String c r => String c (take n' r)
  | _, _ => ""
  end.

Fixpoint drop (n : nat) (s : string) : string :=
  match n, s with
  | S n', String _ r => drop n' r
  | _, _ => s
  end.

(** [sep.join(l)] *)
Fixpoint join (sep : string) (l : list string) : string :=
  match l with
  | [] => ""
  | [x] => x
  | x :: r => x +:+ sep +:+ join sep r
  end.

(** [c in s] for a one-character [c]. *)
Fixpoint contains (c : ascii) (s : string) : bool :=
  match s with
  | "" => false
  | String a r => bool_decide (a = c) || contains c r
  end.

(** [s.split(sep)] for a one-character [sep]. *)
Fixpoint split (sep : ascii) (s : string) : list string :=
  match s with
  | "" => [""]
  | String a r =>
      if bool_decide (a = sep) then "" :: split sep r
      else match split sep r with
           | [] => [String a ""]
           | w :: ws => String a w :: ws
           end
  end.

End Str.

(** ** os.path (posixpath) *)

Module Path.

(** The loop of [genericpath._splitext] that skips leading dots: [n]
    characters of [s] are left before the last dot; the answer is whether
    one of them is not a dot. *)
Fixpoint skip_dots (n : nat) (s : string) : bool :=
  match n, s with
  | S n', String c r => if bool_decide (c = "."%char) then skip_dots n' r else true
  | _, _ => false
  end.

(** [os.path.splitext(p)] *)
Definition splitext (p : string) : string * string :=
  let sepIndex := Str.rfind p "/" in
  let dotIndex := Str.rfind p "." in
  if (sepIndex <? dotIndex)%Z then
    let filenameIndex := (sepIndex + 1)%Z in
    if skip_dots (Z.to_nat (dotIndex - filenameIndex))
                 (Str.drop (Z.to_nat filenameIndex) p)
    then (Str.take (Z.to_nat dotIndex) p, Str.drop (Z.to_nat dotIndex) p)
    else (p, "")
  else (p, "").

(** One round of the loop of [os.path.join]. *)
Definition join2 (path b : string) : string :=
  if Str.startswith b "/" then b
  else if bool_decide (path = "") || Str.endswith path "/" then path +:+ b
  else path +:+ "/" +:+ b.

(** [os.path.join(a, *p)] *)
Definition join (a : string) (p : list string) : string := foldl join2 a p.

End Path.

Arguments Path.join : simpl never.
Arguments Path.splitext : simpl never.

(** ** Python integers and their decimal text *)

Module Int.

(** ASCII white space, as [int()] strips it. *)
Definition is_space (c : ascii) : bool :=
  let n := N_of_ascii c in
  ((9 <=? n) && (n <=? 13) || (28 <=? n) && (n <=? 32))%N.

Definition is_digit (c : ascii) : bool :=
  let n := N_of_ascii c in ((48 <=? n) && (n <=? 57))%N.

Definition digit_val (c : ascii) : Z := Z.of_N (N_of_ascii c) - 48.

Definition digit_char (d : Z) : ascii := ascii_of_N (Z.to_N (48 + d)).

Fixpoint lstrip (s : string) : string :=
  match s with
  | String c r => if is_space c then lstrip r else s
  | "" => ""
  end.

Fixpoint rstrip (s : string) : string :=
  match s with
  | "" => ""
  | String c r =>
      let r' := rstrip r in
      if is_space c && bool_decide (r' = "") then "" else String c r'
  end.

(** Decimal digits, with single underscores allowed between two digits;
    [prev] tells whether the previous character was a digit. *)
Fixpoint digits_acc (s : string) (acc : Z) (prev : bool) : option Z :=
  match s with
  | "" => if prev then Some acc else None
  | String c r =>
      if is_digit c then digits_acc r (10 * acc + digit_val c) true
      else if bool_decide (c = "_"%char) && prev then digits_acc r acc false
      else None
  end.

(** [int(s)] for a string [s]: optional white space, an optional sign, then
    digits; [None] is Python's [ValueError]. *)
Definition of_string (s : string) : option Z :=
  match rstrip (lstrip s) with
  | String "-" r => Z.opp <$> digits_acc r 0 false
  | String "+" r => digits_acc r 0 false
  | t => digits_acc t 0 false
  end.

(** The digits of [n >= 0], most significant first, in front of [acc]. *)
Fixpoint digits_of (fuel : nat) (n : Z) (acc : string) : string :=
  match fuel with
  | O => acc
  | S fuel' =>
      let acc' := String (digit_char (n mod 10)) acc in
      if (n <? 10)%Z then acc' else digits_of fuel' (n / 10) acc'
  end.

Definition digits (n : Z) : string := digits_of (S (Z.to_nat (Z.log2 n))) n "".

(** [str(z)] *)
Definition to_string (z : Z) : string :=
  if (z <? 0)%Z then String "-" (digits (- z)) else digits z.

End Int.

(** ** Data *)

(** An [xml.etree.ElementTree.Element]: tag, text ([None] when the element
    has no text) and children in document order. *)
#[warnings="-register-all"]
Inductive Element : Type :=
| Elem (tag : string) (text : option string) (children : list Element).

Module ET.

Definition tag (e : Element) : string := let 'Elem t _ _ := e in t.
Definition text (e : Element) : option string := let 'Elem _ x _ := e in x.
Definition children (e : Element) : list Element := let 'Elem _ _ c := e in c.

(** [e.findall(t)] for a plain tag [t]: the children of [e] with that tag. *)
Definition findall (e : Element) (t : string) : list Element :=
  filter (λ c, tag c = t) (children e).

(** [e.iterfind(path)] for a path [t1/t2/...] of plain tags, given as the
    list of its tags. *)
Definition iterfind (e : Element) (path : list string) : list Element :=
  foldl (λ elems t, elems ≫= λ x, findall x t) [e] path.

(** [e.find(path)]: the first match, or [None]. *)
Definition find (e : Element) (path : list string) : option Element :=
  head (iterfind e path).

(** [ET.SubElement(parent, ...)] appends a child to [parent]. *)
Definition SubElement (parent child : Element) : Element :=
  Elem (tag parent) (text parent) (children parent ++ [child]).

End ET.

(** The dictionaries [parse_halcon_annotation] returns. *)
Module BndBox.
Record t : Type := mk { x1 : Z; y1 : Z; x2 : Z; y2 : Z }.
End BndBox.

Module Obj.
Record t : Type := mk { name : option string; bndbox : BndBox.t }.
End Obj.

(** The entries of the COCO document. *)
Module Category.
Record t : Type := mk { id : Z; name : string; supercategory : string }.
End Category.

Module ImageInfo.
Record t : Type := mk {
  id : Z; file_name : string; width : Z; height : Z;
  date_captured : string; license : Z; coco_url : string; flickr_url : string }.
End ImageInfo.

Module CocoAnn.
Record t : Type := mk {
  id : Z; image_id : Z; category_id : Z; bbox : list Z; area : Z;
  iscrowd : Z; segmentation : list Z }.
End CocoAnn.

Module Coco.
Record t : Type := mk {
  info : list (string * string);
  licenses : list string;
  categories : list Category.t;
  images : list ImageInfo.t;
  annotations : list CocoAnn.t }.
End Coco.

(** ** The file system and the exceptions *)

Inductive content : Type :=
| ImageFile (width height : Z)   (* a decodable image of that size *)
| XmlFile (root : Element)       (* a well-formed XML document *)
| TextFile (s : string)          (* plain text that is not XML *)
| JsonFile (d : Coco.t)          (* the COCO document *)
| OtherFile.                     (* anything else *)

Record filesystem : Type := mkfs {
  files : gmap string content;
  dirs : gmap string (list string);   (* what [os.listdir] returns, in its order *)
  readonly : gset string              (* paths [open(.., 'w')] fails on *)
}.

Inductive exn : Type :=
| FileNotFoundError
| ParseError               (* xml.etree.ElementTree.ParseError *)
| AttributeError           (* [.text] of [None] *)
| TypeError                (* [int(None)] *)
| ValueError               (* [int] of a string that is no integer *)
| KeyError
| UnidentifiedImageError   (* PIL *)
| OSError.

Inductive result (A : Type) : Type :=
| Ok (a : A)
| Raise (e : exn).
Arguments Ok {A} a.
Arguments Raise {A} e.

#[global] Instance result_ret : MRet result := λ A a, Ok a.
#[global] Instance result_bind : MBind result := λ A B f m,
  match m with Ok a => f a | Raise e => Raise e end.
#[global] Instance result_throw : MThrow exn result := λ A e, Raise e.

(** Computations on the file system that may raise. *)
Definition M (A : Type) : Type := filesystem → result A * filesystem.

#[global] Instance M_ret : MRet M := λ A a fs, (Ok a, fs).
#[global] Instance M_bind : MBind M := λ A B f m fs,
  match m fs with
  | (Ok a, fs') => f a fs'
  | (Raise e, fs') => (Raise e, fs')
  end.
#[global] Instance M_throw : MThrow exn M := λ A e fs, (Raise e, fs).

Definition lift {A} (r : result A) : M A := λ fs, (r, fs).

(** [ET.parse(path).getroot()] *)
Definition ET_parse (path : string) : M Element := λ fs,
  match files fs !! path with
  | None => (Raise FileNotFoundError, fs)
  | Some (XmlFile root) => (Ok root, fs)
  | Some _ => (Raise ParseError, fs)
  end.

(** [with Image.open(path) as img: img.size] *)
Definition Image_open_size (path : string) : M (Z * Z) := λ fs,
  match files fs !! path with
  | None => (Raise FileNotFoundError, fs)
  | Some (ImageFile w h) => (Ok (w, h), fs)
  | Some _ => (Raise UnidentifiedImageError, fs)
  end.

(** [with open(path, 'w') as f: f.write(..)] and [json.dump(.., f)] *)
Definition write_file (path : string) (c : content) : M unit := λ fs,
  if decide (path ∈ readonly fs) then (Raise OSError, fs)
  else (Ok (), mkfs (<[path := c]> (files fs)) (dirs fs) (readonly fs)).

(** [os.listdir(d)] *)
Definition listdir (d : string) : M (list string) := λ fs,
  match dirs fs !! d with
  | None => (Raise FileNotFoundError, fs)
  | Some l => (Ok l, fs)
  end.

(** [os.makedirs(d, exist_ok=True)]: directories carry no content of their
    own in [filesystem], so creating one leaves the state as it is. *)
Definition makedirs (d : string) : M unit := mret ().

(** ** parse_halcon_annotation *)

(** [o.text] for the result [o] of [find]. *)
Definition text_of (o : option Element) : result (option string) :=
  match o with
  | None => mthrow AttributeError
  | Some e => mret (ET.text e)
  end.

(** [int(t)] for the text [t] of an element. *)
Definition int (t : option string) : result Z :=
  match t with
  | None => mthrow TypeError
  | Some s => match Int.of_string s with
              | Some z => mret z
              | None => mthrow ValueError
              end
  end.

(** The dictionary built for one [object] node, its fields evaluated in the
    order of the source. *)
Definition obj_info (obj : Element) : result Obj.t :=
  name ← text_of (ET.find obj ["name"]);
  x1 ← text_of (ET.find obj ["bndbox"; "x1"]) ≫= int;
  y1 ← text_of (ET.find obj ["bndbox"; "y1"]) ≫= int;
  x2 ← text_of (ET.find obj ["bndbox"; "x2"]) ≫= int;
  y2 ← text_of (ET.find obj ["bndbox"; "y2"]) ≫= int;
  mret (Obj.mk name (BndBox.mk x1 y1 x2 y2)).

(** The loop over [root.findall('object')], appending to [annotations]. *)
Fixpoint parse_objects (objs : list Element) (annotations : list Obj.t)
  : result (list Obj.t) :=
  match objs with
  | [] => mret annotations
  | obj :: rest =>
      info ← obj_info obj;
      parse_objects rest (annotations ++ [info])
  end.

Definition parse_root (root : Element) : result (list Obj.t) :=
  parse_objects (ET.findall root "object") [].

Definition parse_halcon_annotation (ann_path : string) : M (list Obj.t) :=
  root ← ET_parse ann_path;
  lift (parse_root root).

(** ** The extension filter and the paths both exporters use *)

(** [img_file.lower().endswith(('.png', '.jpg', '.jpeg'))] *)
Definition accepted (img_file : string) : bool :=
  let l := Str.lower img_file in
  Str.endswith l ".png" || Str.endswith l ".jpg" || Str.endswith l ".jpeg".

(** [os.path.splitext(img_file)[0]] *)
Definition stem (img_file : string) : string := (Path.splitext img_file).1.

(** [enumerate(l, start)] *)
Fixpoint enumerate {A} (l : list A) (start : Z) : list (Z * A) :=
  match l with
  | [] => []
  | x :: r => (start, x) :: enumerate r (start + 1)
  end.

(** ** convert_to_voc *)

(** The [object] block appended for one annotation.  [ET.SubElement] attaches
    a child when it creates it and the script fills the child afterwards;
    the tree that results is the one built here, children first. *)
Definition voc_object (ann : Obj.t) : Element :=
  let obj := Elem "object" None [] in
  let obj := ET.SubElement obj (Elem "name" (Obj.name ann) []) in
  let obj := ET.SubElement obj (Elem "pose" (Some "Unspecified") []) in
  let obj := ET.SubElement obj (Elem "truncated" (Some "0") []) in
  let obj := ET.SubElement obj (Elem "difficult" (Some "0") []) in
  let bndbox := Elem "bndbox" None [] in
  let bndbox := ET.SubElement bndbox
    (Elem "xmin" (Some (Int.to_string (BndBox.x1 (Obj.bndbox ann)))) []) in
  let bndbox := ET.SubElement bndbox
    (Elem "ymin" (Some (Int.to_string (BndBox.y1 (Obj.bndbox ann)))) []) in
  let bndbox := ET.SubElement bndbox
    (Elem "xmax" (Some (Int.to_string (BndBox.x2 (Obj.bndbox ann)))) []) in
  let bndbox := ET.SubElement bndbox
    (Elem "ymax" (Some (Int.to_string (BndBox.y2 (Obj.bndbox ann)))) []) in
  ET.SubElement obj bndbox.

(** The tree before the annotations are added. *)
Definition voc_header (img_file img_path : string) (width height : Z) : Element :=
  let root := Elem "annotation" None [] in
  let root := ET.SubElement root (Elem "folder" (Some "VOC") []) in
  let root := ET.SubElement root (Elem "filename" (Some img_file) []) in
  let root := ET.SubElement root (Elem "path" (Some img_path) []) in
  let source := Elem "source" None [] in
  let source := ET.SubElement source (Elem "database" (Some "Unknown") []) in
  let root := ET.SubElement root source in
  let size := Elem "size" None [] in
  let size := ET.SubElement size (Elem "width" (Some (Int.to_string width)) []) in
  let size := ET.SubElement size (Elem "height" (Some (Int.to_string height)) []) in
  let size := ET.SubElement size (Elem "depth" (Some "3") []) in
  ET.SubElement root size.

(** [for ann in annotations: ...] on the tree [root]. *)
Definition voc_add_objects (root : Element) (annotations : list Obj.t) : Element :=
  foldl (λ root ann, ET.SubElement root (voc_object ann)) root annotations.

Definition voc_xml_path (output_dir img_id : string) : string :=
  Path.join output_dir ["Annotations"; img_id +:+ ".xml"].

Definition voc_trainval_path (output_dir : string) : string :=
  Path.join output_dir ["ImageSets/Main/trainval.txt"].

Definition ann_path_of (ann_dir img_id : string) : string :=
  Path.join ann_dir [img_id +:+ ".xml"].

(** The body of the loop for an accepted [img_file]: everything after
    [image_ids.append(img_id)]. *)
Definition voc_image (img_dir ann_dir output_dir img_file : string) : M unit :=
  let img_id := stem img_file in
  let img_path := Path.join img_dir [img_file] in
  let ann_path := ann_path_of ann_dir img_id in
  '(width, height) ← Image_open_size img_path;
  let root := voc_header img_file img_path width height in
  annotations ← parse_halcon_annotation ann_path;
  let root := voc_add_objects root annotations in
  write_file (voc_xml_path output_dir img_id) (XmlFile root).

(** [for img_file in os.listdir(img_dir): ...], with the list [image_ids]
    built so far. *)
Fixpoint voc_loop (img_dir ann_dir output_dir : string)
    (listing : list string) (image_ids : list string) : M (list string) :=
  match listing with
  | [] => mret image_ids
  | img_file :: rest =>
      if negb (accepted img_file) then
        voc_loop img_dir ann_dir output_dir rest image_ids
      else
        let image_ids := image_ids ++ [stem img_file] in
        voc_image img_dir ann_dir output_dir img_file;;
        voc_loop img_dir ann_dir output_dir rest image_ids
  end.

Definition convert_to_voc (img_dir ann_dir output_dir : string)
    (class_names : list string) : M unit :=
  makedirs (Path.join output_dir ["Annotations"]);;
  makedirs (Path.join output_dir ["ImageSets"; "Main"]);;
  makedirs (Path.join output_dir ["JPEGImages"]);;
  listing ← listdir img_dir;
  image_ids ← voc_loop img_dir ann_dir output_dir listing [];
  write_file (voc_trainval_path output_dir)
             (TextFile (Str.join (String "010" "") image_ids)).

(** ** convert_to_coco *)

(** [{name: i for i, name in enumerate(class_names, 1)}]: a later entry
    replaces an earlier one with the same name. *)
Definition category_ids_of (class_names : list string) : gmap string Z :=
  foldl (λ d '(i, name), <[name := i]> d) ∅ (enumerate class_names 1).

(** The first loop: one category per name. *)
Definition categories_of (class_names : list string) : list Category.t :=
  foldl (λ cats '(i, name), cats ++ [Category.mk i name "none"]) []
        (enumerate class_names 1).

(** [category_ids[key]]: a missing key raises [KeyError]; the key is the text
    of a [name] element, which may be [None]. *)
Definition category_lookup (category_ids : gmap string Z) (key : option string)
  : result Z :=
  match key ≫= (category_ids !!.) with
  | Some i => mret i
  | None => mthrow KeyError
  end.

Definition coco_add_image (coco : Coco.t) (i : ImageInfo.t) : Coco.t :=
  Coco.mk (Coco.info coco) (Coco.licenses coco) (Coco.categories coco)
          (Coco.images coco ++ [i]) (Coco.annotations coco).

Definition coco_add_annotation (coco : Coco.t) (a : CocoAnn.t) : Coco.t :=
  Coco.mk (Coco.info coco) (Coco.licenses coco) (Coco.categories coco)
          (Coco.images coco) (Coco.annotations coco ++ [a]).

(** The entry appended for one annotation. *)
Definition coco_annotation (category_ids : gmap string Z) (ann_id img_id : Z)
    (ann : Obj.t) : result CocoAnn.t :=
  let x1 := BndBox.x1 (Obj.bndbox ann) in
  let y1 := BndBox.y1 (Obj.bndbox ann) in
  let x2 := BndBox.x2 (Obj.bndbox ann) in
  let y2 := BndBox.y2 (Obj.bndbox ann) in
  let width := (x2 - x1)%Z in
  let height := (y2 - y1)%Z in
  category_id ← category_lookup category_ids (Obj.name ann);
  mret (CocoAnn.mk ann_id img_id category_id [x1; y1; width; height]
                   (width * height) 0 []).

(** [for ann in annotations: ...] with the document and the counter
    [ann_id] as they stand. *)
Fixpoint coco_annotations_loop (category_ids : gmap string Z) (img_id : Z)
    (annotations : list Obj.t) (coco : Coco.t) (ann_id : Z)
  : result (Coco.t * Z) :=
  match annotations with
  | [] => mret (coco, ann_id)
  | ann :: rest =>
      a ← coco_annotation category_ids ann_id img_id ann;
      coco_annotations_loop category_ids img_id rest
        (coco_add_annotation coco a) (ann_id + 1)
  end.

(** [for img_id, img_file in enumerate(os.listdir(img_dir), 1): ...] *)
Fixpoint coco_loop (img_dir ann_dir : string) (category_ids : gmap string Z)
    (entries : list (Z * string)) (coco : Coco.t) (ann_id : Z)
  : M (Coco.t * Z) :=
  match entries with
  | [] => mret (coco, ann_id)
  | (img_id, img_file) :: rest =>
      if negb (accepted img_file) then
        coco_loop img_dir ann_dir category_ids rest coco ann_id
      else
        let img_path := Path.join img_dir [img_file] in
        '(width, height) ← Image_open_size img_path;
        let image_info :=
          ImageInfo.mk img_id img_file width height "2023-01-01" 0 "" "" in
        let coco := coco_add_image coco image_info in
        let ann_path := ann_path_of ann_dir (stem img_file) in
        annotations ← parse_halcon_annotation ann_path;
        '(coco, ann_id) ← lift (coco_annotations_loop category_ids img_id
                                   annotations coco ann_id);
        coco_loop img_dir ann_dir category_ids rest coco ann_id
  end.

Definition convert_to_coco (img_dir ann_dir output_path : string)
    (class_names : list string) : M unit :=
  let coco := Coco.mk [] [] [] [] [] in
  let coco := Coco.mk (Coco.info coco) (Coco.licenses coco)
                      (categories_of class_names)
                      (Coco.images coco) (Coco.annotations coco) in
  let category_ids := category_ids_of class_names in
  listing ← listdir img_dir;
  '(coco, _) ← coco_loop img_dir ann_dir category_ids (enumerate listing 1) coco 1;
  write_file output_path (JsonFile coco).

(** ** Definitions the statements use *)

(** A computation that only reads leaves the file system as it found it. *)
Definition reads_only {A} (m : M A) : Prop := ∀ fs, (m fs).2 = fs.

(** What a read yields, as a function of the state. *)
Definition size_at (fs : filesystem) (path : string) : option (Z * Z) :=
  match files fs !! path with
  | Some (ImageFile w h) => Some (w, h)
  | _ => None
  end.

Definition anns_at (fs : filesystem) (path : string) : option (list Obj.t) :=
  match files fs !! path with
  | Some (XmlFile root) =>
      match parse_root root with Ok l => Some l | Raise _ => None end
  | _ => None
  end.

(** The directory entries that pass the extension filter. *)
Definition processed {I} (entries : list (I * string)) : list (I * string) :=
  filter (λ e, accepted e.2 = true) entries.

(** The annotations parsed for [img_file], when its file parses. *)
Definition parsed (fs : filesystem) (ann_dir img_file : string) : list Obj.t :=
  default [] (anns_at fs (ann_path_of ann_dir (stem img_file))).

(** The parsed boxes in processing order, each with the image id it is
    processed under. *)
Definition boxes (fs : filesystem) (ann_dir : string)
    (entries : list (Z * string)) : list (Z * Obj.t) :=
  processed entries ≫= λ e, (e.1,.) <$> parsed fs ann_dir e.2.

Definition coco_extend (coco : Coco.t) (imgs : list ImageInfo.t)
    (anns : list CocoAnn.t) : Coco.t :=
  Coco.mk (Coco.info coco) (Coco.licenses coco) (Coco.categories coco)
          (Coco.images coco ++ imgs) (Coco.annotations coco ++ anns).

(** [l.index(x)], and the index of the last occurrence. *)
Fixpoint index (x : string) (l : list string) : option nat :=
  match l with
  | [] => None
  | y :: r => if decide (x = y) then Some 0%nat else S <$> index x r
  end.

Fixpoint rindex (x : string) (l : list string) : option nat :=
  match l with
  | [] => None
  | y :: r =>
      match rindex x r with
      | Some i => Some (S i)
      | None => if decide (x = y) then Some 0%nat else None
      end
  end.

(** Sample inputs. *)
Definition leaf (t s : string) : Element := Elem t (Some s) [].

Definition halcon_object (name a b c d : string) : Element :=
  Elem "object" None
    [leaf "name" name;
     Elem "bndbox" None [leaf "x1" a; leaf "y1" b; leaf "x2" c; leaf "y2" d]].

Definition cat_xml : content :=
  XmlFile (Elem "annotation" None [halcon_object "cat" "10" "10" "60" "40"]).

(** One image [a.jpg] of 100 x 50 with one [cat] box at (10, 10, 60, 40). *)
Definition sample_fs (listing : list string) : filesystem :=
  mkfs (<["imgs/a.jpg" := ImageFile 100 50]> (<["anns/a.xml" := cat_xml]> ∅))
       (<["imgs" := listing]> ∅) ∅.

(** The same with a second image [a.png] of 20 x 20, and an image [b.jpg]
    that has no annotation file. *)
Definition sample_fs2 (listing : list string) : filesystem :=
  mkfs (<["imgs/a.png" := ImageFile 20 20]>
          (<["imgs/b.jpg" := ImageFile 30 30]> (files (sample_fs listing))))
       (<["imgs" := listing]> ∅) ∅.

(** A box whose class name is one of [class_names]. *)
Definition known (class_names : list string) (b : Obj.t) : Prop :=
  ∃ x, Obj.name b = Some x ∧ x ∈ class_names.

(** An accepted image that the loop passes without raising: its image opens
    and its annotation file parses to boxes of known classes. *)
Definition passes (fs : filesystem) (img_dir ann_dir : string)
    (class_names : list string) (img_file : string) : Prop :=
  is_Some (size_at fs (Path.join img_dir [img_file])) ∧
  ∃ anns, anns_at fs (ann_path_of ann_dir (stem img_file)) = Some anns ∧
          Forall (known class_names) anns.

(** The integer a corner field holds: its element is found, has text, and
    the text reads as an integer. *)
Definition corner (obj : Element) (c : string) : option Z :=
  (ET.find obj ["bndbox"; c] ≫= ET.text) ≫= Int.of_string.

(** The five fields of an [object] node, as [obj_info] needs them. *)
Definition has_fields (obj : Element) (info : Obj.t) : Prop :=
  ∃ en, ET.find obj ["name"] = Some en ∧
        Obj.name info = ET.text en ∧
        corner obj "x1" = Some (BndBox.x1 (Obj.bndbox info)) ∧
        corner obj "y1" = Some (BndBox.y1 (Obj.bndbox info)) ∧
        corner obj "x2" = Some (BndBox.x2 (Obj.bndbox info)) ∧
        corner obj "y2" = Some (BndBox.y2 (Obj.bndbox info)).

Definition lacks_field (obj : Element) : Prop :=
  ET.find obj ["name"] = None ∨
  corner obj "x1" = None ∨ corner obj "y1" = None ∨
  corner obj "x2" = None ∨ corner obj "y2" = None.

(** A string of decimal digits only. *)
Fixpoint all_digits (s : string) : bool :=
  match s with
  | "" => true
  | String c r => Int.is_digit c && negb (Int.is_space c) && all_digits r
  end.

(** A directory path as a prefix of the paths below it. *)
Definition dir_prefix (d : string) : string :=
  if bool_decide (d = "") || Str.endswith d "/" then d else d +:+ "/".

(** The tree written for one image. *)
Definition voc_tree (img_file img_path : string) (width height : Z)
    (annotations : list Obj.t) : Element :=
  voc_add_objects (voc_header img_file img_path width height) annotations.

(** An [object] block of the VOC tree that holds the box [b] as it was parsed:
    the name, and the four corners as decimal text that reads back as the
    same integers. *)
Definition voc_fields (b : Obj.t) (obj : Element) : Prop :=
  let box := Obj.bndbox b in
  ET.find obj ["name"] ≫= ET.text = Obj.name b ∧
  ET.find obj ["bndbox"; "xmin"] ≫= ET.text = Some (Int.to_string (BndBox.x1 box)) ∧
  ET.find obj ["bndbox"; "ymin"] ≫= ET.text = Some (Int.to_string (BndBox.y1 box)) ∧
  ET.find obj ["bndbox"; "xmax"] ≫= ET.text = Some (Int.to_string (BndBox.x2 box)) ∧
  ET.find obj ["bndbox"; "ymax"] ≫= ET.text = Some (Int.to_string (BndBox.y2 box)) ∧
  corner obj "xmin" = Some (BndBox.x1 box) ∧
  corner obj "ymin" = Some (BndBox.y1 box) ∧
  corner obj "xmax" = Some (BndBox.x2 box) ∧
  corner obj "ymax" = Some (BndBox.y2 box).

Definition raises_only {A} (P : exn → Prop) (m : M A) : Prop :=
  ∀ fs e fs', m fs = (Raise e, fs') → P e.

(** The [object] children of the root of the XML file at [path]. *)
Definition objects_at (fs : filesystem) (path : string) : list Element :=
  match files fs !! path with
  | Some (XmlFile root) => ET.findall root "object"
  | _ => []
  end.

(** A string of dots only. *)
Fixpoint only_dots (s : string) : bool :=
  match s with
  | "" => true
  | String c r => bool_decide (c = "."%char) && only_dots r
  end.

(** ** The script run as a program *)

Definition HALCON_IMG_DIR : string := "/path/to/halcon/images".
Definition HALCON_ANN_DIR : string := "/path/to/halcon/annotations".
Definition VOC_OUTPUT_DIR : string := "/path/to/voc_dataset".
Definition COCO_OUTPUT_PATH : string := "/path/to/coco/annotations.json".
Definition CLASS_NAMES : list string := ["cat"; "dog"; "person"].

(** The block under [if __name__ == "__main__"]: the VOC export, then the
    COCO export; an exception of the first ends the program. *)
Definition main : M unit :=
  convert_to_voc HALCON_IMG_DIR HALCON_ANN_DIR VOC_OUTPUT_DIR CLASS_NAMES;;
  convert_to_coco HALCON_IMG_DIR HALCON_ANN_DIR COCO_OUTPUT_PATH CLASS_NAMES.

(** A file system for [main]: the image [a.jpg] with one annotation. *)
Definition main_fs (listing : list string) : filesystem :=
  mkfs (<["/path/to/halcon/images/a.jpg" := ImageFile 100 50]>
          (<["/path/to/halcon/annotations/a.xml" := cat_xml]> ∅))
       (<["/path/to/halcon/images" := listing]> ∅) ∅.

(** * Properties *)

(** ** The library functions on examples *)

Example lower_ex : Str.lower "A.Jpg" = "a.jpg".
Proof. reflexivity. Qed.

Example accepted_ex :
  accepted "a.JPEG" = true ∧ accepted ".png" = true ∧
  accepted "a.jpg.txt" = false ∧ accepted "png" = false.
Proof. repeat split. Qed.

Example splitext_ex1 : Path.splitext "a.b.jpg" = ("a.b", ".jpg").
Proof. reflexivity. Qed.

Example splitext_ex2 : Path.splitext ".png" = (".png", "").
Proof. reflexivity. Qed.

Example splitext_ex3 : Path.splitext "..png" = ("..png", "").
Proof. reflexivity. Qed.

Example splitext_ex4 : Path.splitext "x/.a.png" = ("x/.a", ".png").
Proof. reflexivity. Qed.

Example join_ex1 : Path.join "out" ["Annotations"; "a.xml"] = "out/Annotations/a.xml".
Proof. reflexivity. Qed.

Example join_ex2 : Path.join "out/" ["ImageSets/Main/trainval.txt"] = "out/ImageSets/Main/trainval.txt".
Proof. reflexivity. Qed.

Example join_ex3 : Path.join "" ["a.xml"] = "a.xml".
Proof. reflexivity. Qed.

Example split_ex : Str.split "010" (Str.join (String "010" "") ["a"; "b"; "c"]) = ["a"; "b"; "c"].
Proof. reflexivity. Qed.

Example int_ex1 : Int.of_string " 12 " = Some 12%Z.
Proof. reflexivity. Qed.

Example int_ex2 : Int.of_string "-1_000" = Some (-1000)%Z.
Proof. reflexivity. Qed.

Example int_ex3 : Int.of_string "1__0" = None ∧ Int.of_string "" = None ∧
  Int.of_string "- 5" = None ∧ Int.of_string "12a" = None ∧ Int.of_string "_1" = None.
Proof. repeat split. Qed.

Example str_ex : Int.to_string 1500 = "1500" ∧ Int.to_string 0 = "0" ∧
  Int.to_string (-40) = "-40" ∧ Int.to_string 1000000007 = "1000000007".
Proof. repeat split. Qed.

(** ** The two monads *)

Section monads.
Context {A B : Type}.

Lemma result_bind_Ok (m : result A) (f : A → result B) (b : B) :
  m ≫= f = Ok b ↔ ∃ a, m = Ok a ∧ f a = Ok b.
Proof. destruct m; unfold mbind, result_bind; naive_solver. Qed.

Lemma result_bind_Raise (m : result A) (f : A → result B) (e : exn) :
  m ≫= f = Raise e ↔ m = Raise e ∨ ∃ a, m = Ok a ∧ f a = Raise e.
Proof. destruct m; unfold mbind, result_bind; naive_solver. Qed.

Lemma M_bind_unfold (m : M A) (f : A → M B) (fs : filesystem) :
  (m ≫= f) fs =
  match m fs with
  | (Ok a, fs') => f a fs'
  | (Raise e, fs') => (Raise e, fs')
  end.
Proof. reflexivity. Qed.

Lemma M_bind_Ok (m : M A) (f : A → M B) (fs fs' : filesystem) (b : B) :
  (m ≫= f) fs = (Ok b, fs') ↔
  ∃ a fs1, m fs = (Ok a, fs1) ∧ f a fs1 = (Ok b, fs').
Proof. rewrite M_bind_unfold. destruct (m fs) as [[a|e] fs1]; naive_solver. Qed.

Lemma M_bind_Raise (m : M A) (f : A → M B) (fs fs' : filesystem) (e : exn) :
  (m ≫= f) fs = (Raise e, fs') ↔
  m fs = (Raise e, fs') ∨ ∃ a fs1, m fs = (Ok a, fs1) ∧ f a fs1 = (Raise e, fs').
Proof. rewrite M_bind_unfold. destruct (m fs) as [[a|e'] fs1]; naive_solver. Qed.
End monads.

Lemma reads_only_ret {A} (a : A) : reads_only (mret a).
Proof. by intros fs. Qed.

Lemma reads_only_lift {A} (r : result A) : reads_only (lift r).
Proof. by intros fs. Qed.

Lemma reads_only_bind {A B} (m : M A) (f : A → M B) :
  reads_only m → (∀ a, reads_only (f a)) → reads_only (m ≫= f).
Proof.
  intros Hm Hf fs. rewrite M_bind_unfold. specialize (Hm fs).
  destruct (m fs) as [[a|e] fs1]; simpl in *; subst; [apply Hf|done].
Qed.

Lemma reads_only_ET_parse path : reads_only (ET_parse path).
Proof. intros fs. unfold ET_parse. by repeat case_match. Qed.

Lemma reads_only_Image_open_size path : reads_only (Image_open_size path).
Proof. intros fs. unfold Image_open_size. by repeat case_match. Qed.


Lemma reads_only_parse_halcon_annotation path :
  reads_only (parse_halcon_annotation path).
Proof.
  apply reads_only_bind; [apply reads_only_ET_parse|].
  intros root. apply reads_only_lift.
Qed.

Lemma reads_only_coco_loop img_dir ann_dir cids entries coco ann_id :
  reads_only (coco_loop img_dir ann_dir cids entries coco ann_id).
Proof.
  revert coco ann_id.
  induction entries as [|[img_id img_file] rest IH]; intros coco ann_id.
  - apply reads_only_ret.
  - simpl. destruct (accepted img_file); simpl; [|apply IH].
    apply reads_only_bind; [apply reads_only_Image_open_size|].
    intros [w h]. apply reads_only_bind; [apply reads_only_parse_halcon_annotation|].
    intros anns. apply reads_only_bind; [apply reads_only_lift|].
    intros [coco' ann_id']. apply IH.
Qed.

Lemma Image_open_size_Ok path fs wh fs' :
  Image_open_size path fs = (Ok wh, fs') ↔ size_at fs path = Some wh ∧ fs' = fs.
Proof.
  unfold Image_open_size, size_at.
  destruct (files fs !! path) as [[]|]; naive_solver.
Qed.

Lemma parse_halcon_annotation_Ok path fs anns fs' :
  parse_halcon_annotation path fs = (Ok anns, fs') ↔
  anns_at fs path = Some anns ∧ fs' = fs.
Proof.
  unfold parse_halcon_annotation, anns_at. rewrite M_bind_unfold.
  unfold ET_parse, lift.
  destruct (files fs !! path) as [[]|]; try naive_solver.
  destruct (parse_root root); naive_solver.
Qed.

(** ** What a successful COCO run has done *)

Lemma processed_cons {I} (i : I) (f : string) (rest : list (I * string)) :
  processed ((i, f) :: rest) =
  if accepted f then (i, f) :: processed rest else processed rest.
Proof.
  unfold processed. rewrite filter_cons. simpl.
  destruct (accepted f); by simpl.
Qed.

Lemma boxes_cons fs ann_dir i f rest :
  boxes fs ann_dir ((i, f) :: rest) =
  if accepted f then ((i,.) <$> parsed fs ann_dir f) ++ boxes fs ann_dir rest
  else boxes fs ann_dir rest.
Proof.
  unfold boxes. rewrite processed_cons. destruct (accepted f); by simpl.
Qed.

Lemma coco_extend_nil coco : coco_extend coco [] [] = coco.
Proof. destruct coco. unfold coco_extend. simpl. by rewrite !app_nil_r. Qed.

Lemma coco_extend_extend coco i1 a1 i2 a2 :
  coco_extend (coco_extend coco i1 a1) i2 a2 = coco_extend coco (i1 ++ i2) (a1 ++ a2).
Proof. unfold coco_extend. simpl. by rewrite !app_assoc. Qed.

Lemma coco_annotation_id cids n i ann a :
  coco_annotation cids n i ann = Ok a → CocoAnn.id a = n ∧ CocoAnn.image_id a = i.
Proof.
  unfold coco_annotation. intros (c & _ & [= <-])%result_bind_Ok. done.
Qed.

Lemma coco_annotations_loop_Ok cids img_id anns coco n coco' n' :
  coco_annotations_loop cids img_id anns coco n = Ok (coco', n') →
  ∃ new,
    coco' = coco_extend coco [] new ∧
    Forall2 (λ ann a, coco_annotation cids (CocoAnn.id a) img_id ann = Ok a) anns new ∧
    CocoAnn.id <$> new = seqZ n (Z.of_nat (length anns)) ∧
    n' = (n + Z.of_nat (length anns))%Z.
Proof.
  revert coco n. induction anns as [|ann rest IH]; intros coco n; simpl.
  - intros [= <- <-]. exists []. rewrite coco_extend_nil.
    split_and!; [done|constructor|done|simpl; lia].
  - intros (a & Ha & Hrest)%result_bind_Ok.
    destruct (IH _ _ Hrest) as (new & -> & Hall & Hids & ->).
    destruct (coco_annotation_id _ _ _ _ _ Ha) as [Hid _].
    exists (a :: new). split_and!.
    + unfold coco_add_annotation, coco_extend. simpl.
      by rewrite !app_nil_r, <-app_assoc.
    + constructor; [by rewrite Hid|done].
    + rewrite fmap_cons, Hid, Hids.
      replace (Z.of_nat (S (length rest))) with (Z.succ (Z.of_nat (length rest))) by lia.
      rewrite (seqZ_cons n) by lia. do 2 f_equal; lia.
    + lia.
Qed.

Lemma coco_loop_Ok img_dir ann_dir cids entries coco n fs coco' n' fs' :
  coco_loop img_dir ann_dir cids entries coco n fs = (Ok (coco', n'), fs') →
  fs' = fs ∧
  ∃ imgs new,
    coco' = coco_extend coco imgs new ∧
    Forall2 (λ e im, ∃ w h,
               size_at fs (Path.join img_dir [e.2]) = Some (w, h) ∧
               is_Some (anns_at fs (ann_path_of ann_dir (stem e.2))) ∧
               im = ImageInfo.mk e.1 e.2 w h "2023-01-01" 0 "" "")
            (processed entries) imgs ∧
    Forall2 (λ b a, coco_annotation cids (CocoAnn.id a) b.1 b.2 = Ok a)
            (boxes fs ann_dir entries) new ∧
    CocoAnn.id <$> new = seqZ n (Z.of_nat (length new)) ∧
    n' = (n + Z.of_nat (length new))%Z.
Proof.
  intros Hrun. split.
  { pose proof (reads_only_coco_loop img_dir ann_dir cids entries coco n fs) as H.
    by rewrite Hrun in H. }
  revert coco n Hrun.
  induction entries as [|[img_id img_file] rest IH]; intros coco n; simpl.
  - intros [= <- <- _]. exists [], []. rewrite coco_extend_nil.
    split_and!; [done|constructor|constructor|done|simpl; lia].
  - rewrite processed_cons, boxes_cons.
    destruct (accepted img_file) eqn:Hacc; simpl.
    2:{ apply IH. }
    intros ([w h] & fs1 & [Hsz ->]%Image_open_size_Ok & Hrun)%M_bind_Ok.
    apply M_bind_Ok in Hrun
      as (anns & fs1 & [Hanns ->]%parse_halcon_annotation_Ok & Hrun).
    apply M_bind_Ok in Hrun as ([coco1 n1] & fs1 & Hinner & Hrun).
    unfold lift in Hinner. injection Hinner as Hinner <-.
    apply coco_annotations_loop_Ok in Hinner as (new1 & -> & Hall1 & Hids1 & ->).
    destruct (IH _ _ Hrun) as (imgs & new & -> & Himgs & Hnew & Hids & ->).
    exists (ImageInfo.mk img_id img_file w h "2023-01-01" 0 "" "" :: imgs),
           (new1 ++ new).
    assert (length new1 = length anns) as Hlen.
    { symmetry. by eapply Forall2_length. }
    split_and!.
    + unfold coco_add_image. rewrite !coco_extend_extend.
      unfold coco_extend. simpl. by rewrite <-!app_assoc.
    + constructor; [|done]. exists w, h. simpl. by rewrite Hanns.
    + apply Forall2_app; [|done].
      unfold parsed. rewrite Hanns. simpl.
      apply Forall2_fmap_l. eapply Forall2_impl; [exact Hall1|done].
    + rewrite fmap_app, Hids1, Hids, length_app, Nat2Z.inj_add.
      rewrite seqZ_app by lia. by rewrite Hlen.
    + rewrite length_app, Hlen. lia.
Qed.

Lemma write_file_Ok path c fs fs' :
  write_file path c fs = (Ok (), fs') ↔
  (path ∉ readonly fs) ∧
  fs' = mkfs (<[path := c]> (files fs)) (dirs fs) (readonly fs).
Proof. unfold write_file. case_decide; naive_solver. Qed.

Lemma write_file_Raise path c fs e fs' :
  write_file path c fs = (Raise e, fs') ↔
  path ∈ readonly fs ∧ e = OSError ∧ fs' = fs.
Proof. unfold write_file. case_decide; naive_solver. Qed.

Lemma listdir_Ok d fs l fs' :
  listdir d fs = (Ok l, fs') ↔ dirs fs !! d = Some l ∧ fs' = fs.
Proof. unfold listdir. destruct (dirs fs !! d); naive_solver. Qed.

(** The document a successful run writes, and where. *)
Lemma convert_to_coco_Ok img_dir ann_dir output_path class_names fs fs' :
  convert_to_coco img_dir ann_dir output_path class_names fs = (Ok (), fs') →
  ∃ listing imgs new,
    dirs fs !! img_dir = Some listing ∧
    fs' = mkfs (<[output_path :=
                   JsonFile (Coco.mk [] [] (categories_of class_names) imgs new)]>
                  (files fs)) (dirs fs) (readonly fs) ∧
    Forall2 (λ e im, ∃ w h,
               size_at fs (Path.join img_dir [e.2]) = Some (w, h) ∧
               is_Some (anns_at fs (ann_path_of ann_dir (stem e.2))) ∧
               im = ImageInfo.mk e.1 e.2 w h "2023-01-01" 0 "" "")
            (processed (enumerate listing 1)) imgs ∧
    Forall2 (λ b a, coco_annotation (category_ids_of class_names)
                      (CocoAnn.id a) b.1 b.2 = Ok a)
            (boxes fs ann_dir (enumerate listing 1)) new ∧
    CocoAnn.id <$> new = seqZ 1 (Z.of_nat (length new)).
Proof.
  unfold convert_to_coco. simpl.
  intros (listing & fs1 & [Hdir ->]%listdir_Ok & Hrun)%M_bind_Ok.
  apply M_bind_Ok in Hrun as ([coco n] & fs1 & Hloop & Hwrite).
  apply coco_loop_Ok in Hloop as (-> & imgs & new & -> & Himgs & Hnew & Hids & _).
  apply write_file_Ok in Hwrite as [_ ->].
  exists listing, imgs, new. by split_and!.
Qed.


(** ** The category table *)

Lemma index_None x l : index x l = None ↔ x ∉ l.
Proof.
  induction l as [|y r IH]; simpl.
  - split; [intros _; apply not_elem_of_nil|done].
  - rewrite not_elem_of_cons. case_decide.
    + naive_solver.
    + rewrite fmap_None. naive_solver.
Qed.

Lemma rindex_None x l : rindex x l = None ↔ x ∉ l.
Proof.
  induction l as [|y r IH]; simpl.
  - split; [intros _; apply not_elem_of_nil|done].
  - rewrite not_elem_of_cons. destruct (rindex x r); try case_decide; naive_solver.
Qed.

Lemma rindex_lookup x l i : rindex x l = Some i → l !! i = Some x.
Proof.
  revert i. induction l as [|y r IH]; intros i; simpl; [done|].
  destruct (rindex x r) as [j|].
  - intros [= <-]. by apply IH.
  - case_decide; [|done]. by intros [= <-]; subst.
Qed.

Lemma rindex_index_NoDup x l : NoDup l → rindex x l = index x l.
Proof.
  induction 1 as [|y r Hy Hr IH]; simpl; [done|].
  rewrite IH. case_decide as Hxy.
  - subst. by apply index_None in Hy as ->.
  - by destruct (index x r).
Qed.

Lemma category_ids_foldl (l : list string) (start : Z) (d : gmap string Z) x :
  foldl (λ d '(i, name), <[name := i]> d) d (enumerate l start) !! x =
  match rindex x l with
  | Some i => Some (start + Z.of_nat i)%Z
  | None => d !! x
  end.
Proof.
  revert start d. induction l as [|y r IH]; intros start d; simpl; [done|].
  rewrite IH. destruct (rindex x r) as [i|].
  - f_equal. lia.
  - case_decide.
    + subst. rewrite lookup_insert_eq. f_equal. lia.
    + by rewrite lookup_insert_ne.
Qed.

Lemma category_ids_of_lookup class_names x :
  category_ids_of class_names !! x =
  (λ i, 1 + Z.of_nat i)%Z <$> rindex x class_names.
Proof.
  unfold category_ids_of. rewrite category_ids_foldl.
  destruct (rindex x class_names); [done|apply lookup_empty].
Qed.

Lemma categories_foldl (l : list string) (start : Z) (cats : list Category.t) :
  foldl (λ cats '(i, name), cats ++ [Category.mk i name "none"]) cats
        (enumerate l start) =
  cats ++ imap (λ k name, Category.mk (start + Z.of_nat k) name "none") l.
Proof.
  revert start cats. induction l as [|y r IH]; intros start cats; simpl.
  - by rewrite app_nil_r.
  - rewrite IH, <-app_assoc. simpl. f_equal. f_equal.
    + f_equal. lia.
    + apply imap_ext. intros k z _. simpl. f_equal. lia.
Qed.

Lemma categories_of_imap class_names :
  categories_of class_names =
  imap (λ k name, Category.mk (1 + Z.of_nat k) name "none") class_names.
Proof. unfold categories_of. by rewrite categories_foldl. Qed.

Lemma category_lookup_Ok class_names key i :
  category_lookup (category_ids_of class_names) key = Ok i ↔
  ∃ x k, key = Some x ∧ rindex x class_names = Some k ∧ i = (1 + Z.of_nat k)%Z.
Proof.
  unfold category_lookup, mret, mthrow, result_ret, result_throw.
  destruct key as [x|]; simpl.
  - rewrite category_ids_of_lookup.
    destruct (rindex x class_names) as [k|] eqn:Hk; simpl; naive_solver.
  - naive_solver.
Qed.

Lemma category_lookup_Raise class_names key e :
  category_lookup (category_ids_of class_names) key = Raise e ↔
  e = KeyError ∧ ∀ x, key = Some x → x ∉ class_names.
Proof.
  unfold category_lookup, mret, mthrow, result_ret, result_throw.
  destruct key as [x|]; simpl.
  - rewrite category_ids_of_lookup.
    destruct (rindex x class_names) as [k|] eqn:Hk; simpl.
    + split; [done|]. intros [_ H]. exfalso.
      apply (H x eq_refl). apply rindex_lookup in Hk.
      by eapply list_elem_of_lookup_2.
    + apply rindex_None in Hk. naive_solver.
  - naive_solver.
Qed.

(** ** The scenario of the specification *)

Example scenario_coco :
  files (convert_to_coco "imgs" "anns" "out.json" ["cat"; "dog"]
           (sample_fs ["a.jpg"])).2 !! "out.json" =
  Some (JsonFile (Coco.mk [] []
    [Category.mk 1 "cat" "none"; Category.mk 2 "dog" "none"]
    [ImageInfo.mk 1 "a.jpg" 100 50 "2023-01-01" 0 "" ""]
    [CocoAnn.mk 1 1 1 [10; 10; 50; 30]%Z 1500 0 []])).
Proof. vm_compute. reflexivity. Qed.

(** ** The claims about the COCO export *)

Lemma lookup_written path c fs :
  files (mkfs (<[path := c]> (files fs)) (dirs fs) (readonly fs)) !! path = Some c.
Proof. simpl. apply lookup_insert_eq. Qed.

Lemma elem_of_enumerate {A} (l : list A) (start i : Z) (x : A) :
  (i, x) ∈ enumerate l start ↔
  ∃ k : nat, l !! k = Some x ∧ i = (start + Z.of_nat k)%Z.
Proof.
  revert start. induction l as [|y r IH]; intros start; simpl.
  - rewrite elem_of_nil. naive_solver.
  - rewrite elem_of_cons, IH. split.
    + intros [[= -> ->]|(k & Hk & ->)].
      * exists 0%nat. split; [done|lia].
      * exists (S k). split; [done|lia].
    + intros ([|k] & Hk & ->); simpl in Hk.
      * left. injection Hk as ->. f_equal. lia.
      * right. exists k. split; [done|lia].
Qed.

Lemma enumerate_fmap_fst {A} (l : list A) (start : Z) :
  fst <$> enumerate l start = seqZ start (Z.of_nat (length l)).
Proof.
  revert start. induction l as [|x r IH]; intros start; [done|].
  cbn [enumerate fmap list_fmap length]. rewrite IH.
  rewrite (seqZ_cons start) by lia. do 2 f_equal; lia.
Qed.

Lemma processed_all {I} (entries : list (I * string)) :
  Forall (λ e, accepted e.2 = true) entries → processed entries = entries.
Proof.
  induction 1 as [|[i f] r Hf _ IH]; [done|].
  rewrite processed_cons. simpl in Hf. by rewrite Hf, IH.
Qed.

(** C1, as the code has it: every accepted image is recorded, in listing
    order, under its 1-based position in the whole directory listing,
    skipped entries counted; so the ids are 1, 2, 3, ... exactly when no entry
    is skipped. *)
Theorem coco_image_ids img_dir ann_dir output_path class_names fs fs' :
  convert_to_coco img_dir ann_dir output_path class_names fs = (Ok (), fs') →
  ∃ listing doc,
    dirs fs !! img_dir = Some listing ∧
    files fs' !! output_path = Some (JsonFile doc) ∧
    (λ im, (ImageInfo.id im, ImageInfo.file_name im)) <$> Coco.images doc =
      filter (λ e, accepted e.2 = true) (enumerate listing 1) ∧
    (∀ im, im ∈ Coco.images doc →
       ∃ k : nat, listing !! k = Some (ImageInfo.file_name im) ∧
                  ImageInfo.id im = (1 + Z.of_nat k)%Z) ∧
    (Forall (λ f, accepted f = true) listing →
       ImageInfo.id <$> Coco.images doc = seqZ 1 (Z.of_nat (length listing))).
Proof.
  intros (listing & imgs & new & Hdir & -> & Himgs & _)%convert_to_coco_Ok.
  exists listing, (Coco.mk [] [] (categories_of class_names) imgs new).
  assert ((λ im, (ImageInfo.id im, ImageInfo.file_name im)) <$> imgs =
          processed (enumerate listing 1)) as Heq.
  { clear -Himgs. induction Himgs as [|[i f] im r ims (w & h & _ & _ & ->) _ IH];
      [done|]. rewrite fmap_cons, IH. done. }
  split_and!; [done|apply lookup_written|exact Heq| |].
  - intros im Him. simpl in Him.
    assert ((ImageInfo.id im, ImageInfo.file_name im) ∈
            processed (enumerate listing 1)) as Hin.
    { rewrite <-Heq. apply list_elem_of_fmap. by exists im. }
    apply list_elem_of_filter in Hin as [_ Hin].
    by apply elem_of_enumerate in Hin.
  - intros Hall. simpl.
    rewrite <-enumerate_fmap_fst, <-(processed_all (enumerate listing 1)).
    + rewrite <-Heq, <-list_fmap_compose. done.
    + apply Forall_forall. intros [i f] (k & Hk & _)%elem_of_enumerate.
      rewrite Forall_forall in Hall. apply Hall. simpl.
      by eapply list_elem_of_lookup_2.
Qed.

Lemma coco_image_ids_witness :
  ∃ listing doc,
    dirs (sample_fs ["notes.txt"; "a.jpg"]) !! "imgs" = Some listing ∧
    files (convert_to_coco "imgs" "anns" "out.json" ["cat"; "dog"]
             (sample_fs ["notes.txt"; "a.jpg"])).2 !! "out.json" =
      Some (JsonFile doc) ∧
    (λ im, (ImageInfo.id im, ImageInfo.file_name im)) <$> Coco.images doc =
      filter (λ e, accepted e.2 = true) (enumerate listing 1) ∧
    (∀ im, im ∈ Coco.images doc →
       ∃ k : nat, listing !! k = Some (ImageInfo.file_name im) ∧
                  ImageInfo.id im = (1 + Z.of_nat k)%Z) ∧
    (Forall (λ f, accepted f = true) listing →
       ImageInfo.id <$> Coco.images doc = seqZ 1 (Z.of_nat (length listing))).
Proof.
  apply (coco_image_ids "imgs" "anns" "out.json" ["cat"; "dog"]
           (sample_fs ["notes.txt"; "a.jpg"])).
  vm_compute. reflexivity.
Defined.

(** C1 as stated fails: with [notes.txt] listed before [a.jpg], the first
    (and only) accepted image receives id 2, not 1. *)
Lemma coco_image_ids_counterexample :
  ∃ doc im,
    convert_to_coco "imgs" "anns" "out.json" ["cat"; "dog"]
      (sample_fs ["notes.txt"; "a.jpg"]) =
      (Ok (), mkfs (<["out.json" := JsonFile doc]>
                      (files (sample_fs ["notes.txt"; "a.jpg"])))
                   (dirs (sample_fs ["notes.txt"; "a.jpg"])) ∅) ∧
    filter (λ f, accepted f = true) ["notes.txt"; "a.jpg"] = ["a.jpg"] ∧
    Coco.images doc !! 0%nat = Some im ∧
    ImageInfo.file_name im = "a.jpg" ∧
    ImageInfo.id im = 2%Z ∧ ImageInfo.id im ≠ 1%Z.
Proof.
  eexists _, _. split_and!; [vm_compute; reflexivity|..]; try done.
Qed.

(** C6: the annotation ids of the written document are 1, 2, 3, ... in
    processing order, one per parsed box across all images; in particular
    they are pairwise distinct. *)
Theorem coco_annotation_ids img_dir ann_dir output_path class_names fs fs' :
  convert_to_coco img_dir ann_dir output_path class_names fs = (Ok (), fs') →
  ∃ listing doc,
    dirs fs !! img_dir = Some listing ∧
    files fs' !! output_path = Some (JsonFile doc) ∧
    length (Coco.annotations doc) = length (boxes fs ann_dir (enumerate listing 1)) ∧
    CocoAnn.id <$> Coco.annotations doc =
      seqZ 1 (Z.of_nat (length (Coco.annotations doc))) ∧
    (∀ k a, Coco.annotations doc !! k = Some a → CocoAnn.id a = (1 + Z.of_nat k)%Z) ∧
    NoDup (CocoAnn.id <$> Coco.annotations doc).
Proof.
  intros (listing & imgs & new & Hdir & -> & _ & Hnew & Hids)%convert_to_coco_Ok.
  exists listing, (Coco.mk [] [] (categories_of class_names) imgs new).
  split_and!; [done|apply lookup_written|simpl..].
  - symmetry. by eapply Forall2_length.
  - done.
  - intros k a Hk.
    assert ((CocoAnn.id <$> new) !! k = Some (CocoAnn.id a)) as Hka.
    { by rewrite list_lookup_fmap, Hk. }
    rewrite Hids in Hka. apply lookup_seqZ in Hka as [-> _]. done.
  - rewrite Hids. apply NoDup_seqZ.
Qed.

Lemma coco_annotation_ids_witness :
  ∃ listing doc,
    dirs (sample_fs ["a.jpg"]) !! "imgs" = Some listing ∧
    files (convert_to_coco "imgs" "anns" "out.json" ["cat"; "dog"]
             (sample_fs ["a.jpg"])).2 !! "out.json" = Some (JsonFile doc) ∧
    length (Coco.annotations doc) =
      length (boxes (sample_fs ["a.jpg"]) "anns" (enumerate listing 1)) ∧
    CocoAnn.id <$> Coco.annotations doc =
      seqZ 1 (Z.of_nat (length (Coco.annotations doc))) ∧
    (∀ k a, Coco.annotations doc !! k = Some a → CocoAnn.id a = (1 + Z.of_nat k)%Z) ∧
    NoDup (CocoAnn.id <$> Coco.annotations doc).
Proof.
  apply (coco_annotation_ids "imgs" "anns" "out.json" ["cat"; "dog"]
           (sample_fs ["a.jpg"])).
  vm_compute. reflexivity.
Defined.

(** C5: the annotation written for a parsed box (x1, y1, x2, y2) has bbox
    [x1, y1, x2 - x1, y2 - y1] and area (x2 - x1) * (y2 - y1), in exact
    integer arithmetic, and carries the id of the image it was parsed for. *)
Theorem coco_bbox_area img_dir ann_dir output_path class_names fs fs' :
  convert_to_coco img_dir ann_dir output_path class_names fs = (Ok (), fs') →
  ∃ listing doc,
    dirs fs !! img_dir = Some listing ∧
    files fs' !! output_path = Some (JsonFile doc) ∧
    Forall2 (λ b a,
               let box := Obj.bndbox b.2 in
               CocoAnn.image_id a = b.1 ∧
               CocoAnn.bbox a =
                 [BndBox.x1 box; BndBox.y1 box;
                  BndBox.x2 box - BndBox.x1 box;
                  BndBox.y2 box - BndBox.y1 box]%Z ∧
               CocoAnn.area a =
                 ((BndBox.x2 box - BndBox.x1 box) *
                  (BndBox.y2 box - BndBox.y1 box))%Z)
            (boxes fs ann_dir (enumerate listing 1)) (Coco.annotations doc).
Proof.
  intros (listing & imgs & new & Hdir & -> & _ & Hnew & _)%convert_to_coco_Ok.
  exists listing, (Coco.mk [] [] (categories_of class_names) imgs new).
  split_and!; [done|apply lookup_written|simpl].
  eapply Forall2_impl; [exact Hnew|].
  intros [i b] a. unfold coco_annotation. simpl.
  by intros (c & _ & [= <-])%result_bind_Ok.
Qed.

Lemma coco_bbox_area_witness :
  ∃ listing doc,
    dirs (sample_fs ["a.jpg"]) !! "imgs" = Some listing ∧
    files (convert_to_coco "imgs" "anns" "out.json" ["cat"; "dog"]
             (sample_fs ["a.jpg"])).2 !! "out.json" = Some (JsonFile doc) ∧
    Forall2 (λ b a,
               let box := Obj.bndbox b.2 in
               CocoAnn.image_id a = b.1 ∧
               CocoAnn.bbox a =
                 [BndBox.x1 box; BndBox.y1 box;
                  BndBox.x2 box - BndBox.x1 box;
                  BndBox.y2 box - BndBox.y1 box]%Z ∧
               CocoAnn.area a =
                 ((BndBox.x2 box - BndBox.x1 box) *
                  (BndBox.y2 box - BndBox.y1 box))%Z)
            (boxes (sample_fs ["a.jpg"]) "anns" (enumerate listing 1))
            (Coco.annotations doc).
Proof.
  apply (coco_bbox_area "imgs" "anns" "out.json" ["cat"; "dog"]
           (sample_fs ["a.jpg"])).
  vm_compute. reflexivity.
Defined.

(** C4, as the code has it: the category table lists the names of
    [class_names] in order, each with its 1-based position and supercategory
    "none"; the annotation written for a box carries 1 plus the index of the
    LAST occurrence of the box's class name in [class_names], which is 1 plus
    its index when [class_names] has no repeated name. *)
Theorem coco_category_ids img_dir ann_dir output_path class_names fs fs' :
  convert_to_coco img_dir ann_dir output_path class_names fs = (Ok (), fs') →
  ∃ listing doc,
    dirs fs !! img_dir = Some listing ∧
    files fs' !! output_path = Some (JsonFile doc) ∧
    Coco.categories doc =
      imap (λ k name, Category.mk (1 + Z.of_nat k) name "none") class_names ∧
    Forall2 (λ b a, ∃ x k,
               Obj.name b.2 = Some x ∧
               rindex x class_names = Some k ∧
               CocoAnn.category_id a = (1 + Z.of_nat k)%Z ∧
               (NoDup class_names → index x class_names = Some k))
            (boxes fs ann_dir (enumerate listing 1)) (Coco.annotations doc).
Proof.
  intros (listing & imgs & new & Hdir & -> & _ & Hnew & _)%convert_to_coco_Ok.
  exists listing, (Coco.mk [] [] (categories_of class_names) imgs new).
  split_and!; [done|apply lookup_written|apply categories_of_imap|simpl].
  eapply Forall2_impl; [exact Hnew|].
  intros [i b] a. unfold coco_annotation. simpl.
  intros (c & (x & k & Hx & Hk & ->)%category_lookup_Ok & [= <-])%result_bind_Ok.
  exists x, k. split_and!; [done..|].
  intros Hnd. by rewrite <-rindex_index_NoDup.
Qed.

Lemma coco_category_ids_witness :
  ∃ listing doc,
    dirs (sample_fs ["a.jpg"]) !! "imgs" = Some listing ∧
    files (convert_to_coco "imgs" "anns" "out.json" ["dog"; "cat"; "cat"]
             (sample_fs ["a.jpg"])).2 !! "out.json" = Some (JsonFile doc) ∧
    Coco.categories doc =
      imap (λ k name, Category.mk (1 + Z.of_nat k) name "none")
           ["dog"; "cat"; "cat"] ∧
    Forall2 (λ b a, ∃ x k,
               Obj.name b.2 = Some x ∧
               rindex x ["dog"; "cat"; "cat"] = Some k ∧
               CocoAnn.category_id a = (1 + Z.of_nat k)%Z ∧
               (NoDup ["dog"; "cat"; "cat"] →
                index x ["dog"; "cat"; "cat"] = Some k))
            (boxes (sample_fs ["a.jpg"]) "anns" (enumerate listing 1))
            (Coco.annotations doc).
Proof.
  apply (coco_category_ids "imgs" "anns" "out.json" ["dog"; "cat"; "cat"]
           (sample_fs ["a.jpg"])).
  vm_compute. reflexivity.
Defined.

(** C4 as stated fails when a name is repeated: with class names
    [cat, cat] the annotation of a [cat] box carries category id 2, while
    1 plus the index of [cat] in the list is 1. *)
Lemma coco_category_ids_counterexample :
  ∃ doc a,
    convert_to_coco "imgs" "anns" "out.json" ["cat"; "cat"] (sample_fs ["a.jpg"]) =
      (Ok (), mkfs (<["out.json" := JsonFile doc]> (files (sample_fs ["a.jpg"])))
                   (dirs (sample_fs ["a.jpg"])) ∅) ∧
    boxes (sample_fs ["a.jpg"]) "anns" (enumerate ["a.jpg"] 1) =
      [(1%Z, Obj.mk (Some "cat") (BndBox.mk 10 10 60 40))] ∧
    Coco.annotations doc = [a] ∧
    "cat" ∈ ["cat"; "cat"] ∧
    index "cat" ["cat"; "cat"] = Some 0%nat ∧
    CocoAnn.category_id a = 2%Z ∧
    CocoAnn.category_id a ≠ (1 + 0)%Z.
Proof.
  eexists _, _. split_and!; [vm_compute; reflexivity|..]; try done.
  apply elem_of_cons. by left.
Qed.

Lemma coco_annotation_Ok_known class_names n i b a :
  coco_annotation (category_ids_of class_names) n i b = Ok a → known class_names b.
Proof.
  unfold coco_annotation.
  intros (c & (x & k & Hx & Hk & _)%category_lookup_Ok & _)%result_bind_Ok.
  exists x. split; [done|]. apply rindex_lookup in Hk.
  by eapply list_elem_of_lookup_2.
Qed.

Lemma coco_annotation_known class_names n i b :
  known class_names b →
  ∃ a, coco_annotation (category_ids_of class_names) n i b = Ok a.
Proof.
  intros (x & Hx & Hin). unfold coco_annotation.
  destruct (rindex x class_names) as [k|] eqn:Hk.
  - assert (category_lookup (category_ids_of class_names) (Obj.name b) =
            Ok (1 + Z.of_nat k)%Z) as ->.
    { apply category_lookup_Ok. by exists x, k. }
    by eexists.
  - by apply rindex_None in Hk.
Qed.

Lemma coco_annotation_Raise class_names n i b e :
  coco_annotation (category_ids_of class_names) n i b = Raise e →
  e = KeyError ∧ ¬ known class_names b.
Proof.
  unfold coco_annotation.
  intros [[-> Hx]%category_lookup_Raise|(c & _ & [=])]%result_bind_Raise.
  split; [done|]. intros (x & Hname & Hin). by apply (Hx x).
Qed.

Lemma coco_annotations_loop_known class_names i anns coco n :
  Forall (known class_names) anns →
  ∃ coco' n',
    coco_annotations_loop (category_ids_of class_names) i anns coco n =
    Ok (coco', n').
Proof.
  intros Hall. revert coco n.
  induction Hall as [|b rest Hb _ IH]; intros coco n; simpl.
  - by eexists _, _.
  - destruct (coco_annotation_known class_names n i b Hb) as [a ->]. apply IH.
Qed.

Lemma coco_annotations_loop_unknown class_names i anns coco n b :
  b ∈ anns → ¬ known class_names b →
  coco_annotations_loop (category_ids_of class_names) i anns coco n =
  Raise KeyError.
Proof.
  intros Hin Hb. revert coco n.
  induction anns as [|a rest IH]; intros coco n; simpl.
  - by apply elem_of_nil in Hin.
  - destruct (coco_annotation (category_ids_of class_names) n i a)
      as [a'|e] eqn:Ha; simpl.
    + apply elem_of_cons in Hin as [->|Hin]; [|by apply IH].
      by apply coco_annotation_Ok_known in Ha.
    + by apply coco_annotation_Raise in Ha as [-> _].
Qed.

Lemma Image_open_size_run path fs wh :
  size_at fs path = Some wh → Image_open_size path fs = (Ok wh, fs).
Proof. intros. by apply Image_open_size_Ok. Qed.

Lemma parse_halcon_annotation_run path fs anns :
  anns_at fs path = Some anns → parse_halcon_annotation path fs = (Ok anns, fs).
Proof. intros. by apply parse_halcon_annotation_Ok. Qed.

Lemma enumerate_app {A} (l1 l2 : list A) (start : Z) :
  enumerate (l1 ++ l2) start =
  enumerate l1 start ++ enumerate l2 (start + Z.of_nat (length l1)).
Proof.
  revert start. induction l1 as [|x r IH]; intros start; simpl.
  - by rewrite Z.add_0_r.
  - rewrite IH. do 3 f_equal. lia.
Qed.

Lemma coco_loop_unknown img_dir ann_dir class_names pre start i f rest
    coco n fs anns b :
  Forall (λ g, accepted g = true → passes fs img_dir ann_dir class_names g) pre →
  accepted f = true →
  is_Some (size_at fs (Path.join img_dir [f])) →
  anns_at fs (ann_path_of ann_dir (stem f)) = Some anns →
  b ∈ anns → ¬ known class_names b →
  coco_loop img_dir ann_dir (category_ids_of class_names)
    (enumerate pre start ++ (i, f) :: rest) coco n fs = (Raise KeyError, fs).
Proof.
  intros Hpre Hacc [[w h] Hsz] Hanns Hin Hb. revert start coco n.
  induction Hpre as [|g pre Hg _ IH]; intros start coco n; simpl.
  - rewrite Hacc. simpl. rewrite M_bind_unfold, (Image_open_size_run _ _ _ Hsz).
    rewrite M_bind_unfold, (parse_halcon_annotation_run _ _ _ Hanns).
    rewrite M_bind_unfold. unfold lift.
    by rewrite (coco_annotations_loop_unknown _ _ _ _ _ b).
  - destruct (accepted g) eqn:Hacc_g; simpl; [|apply IH].
    destruct (Hg eq_refl) as [[[w' h'] Hsz'] (anns' & Hanns' & Hknown)].
    rewrite M_bind_unfold, (Image_open_size_run _ _ _ Hsz').
    rewrite M_bind_unfold, (parse_halcon_annotation_run _ _ _ Hanns').
    rewrite M_bind_unfold. unfold lift.
    edestruct coco_annotations_loop_known as (coco1 & n1 & ->); [exact Hknown|].
    apply IH.
Qed.

(** C7: when the loop reaches a box whose class name is not in [class_names]
    (the images listed before it pass, its own image opens and its file
    parses), the run raises [KeyError] and leaves the file system as it
    was: no document is written, so no category is added for the name and no
    annotation is emitted for the box. *)
Theorem coco_unknown_category img_dir ann_dir output_path class_names fs
    pre f post anns b :
  dirs fs !! img_dir = Some (pre ++ f :: post) →
  Forall (λ g, accepted g = true → passes fs img_dir ann_dir class_names g) pre →
  accepted f = true →
  is_Some (size_at fs (Path.join img_dir [f])) →
  anns_at fs (ann_path_of ann_dir (stem f)) = Some anns →
  b ∈ anns →
  (∀ x, Obj.name b = Some x → x ∉ class_names) →
  convert_to_coco img_dir ann_dir output_path class_names fs = (Raise KeyError, fs).
Proof.
  intros Hdir Hpre Hacc Hsz Hanns Hin Hb.
  unfold convert_to_coco. simpl.
  rewrite M_bind_unfold, (proj2 (listdir_Ok _ _ _ _) (conj Hdir eq_refl)).
  rewrite M_bind_unfold, enumerate_app. simpl.
  rewrite (coco_loop_unknown _ _ _ _ _ _ _ _ _ _ _ anns b); try done.
  intros (x & Hx & Hxin). by apply (Hb x).
Qed.

Lemma coco_unknown_category_witness :
  convert_to_coco "imgs" "anns" "out.json" ["dog"] (sample_fs ["notes.txt"; "a.jpg"]) =
  (Raise KeyError, sample_fs ["notes.txt"; "a.jpg"]).
Proof.
  apply (coco_unknown_category "imgs" "anns" "out.json" ["dog"]
           (sample_fs ["notes.txt"; "a.jpg"]) ["notes.txt"] "a.jpg" []
           [Obj.mk (Some "cat") (BndBox.mk 10 10 60 40)]
           (Obj.mk (Some "cat") (BndBox.mk 10 10 60 40))).
  - vm_compute. reflexivity.
  - constructor; [|constructor]. vm_compute. discriminate.
  - vm_compute. reflexivity.
  - vm_compute. eexists. reflexivity.
  - vm_compute. reflexivity.
  - apply elem_of_cons. by left.
  - intros x [= <-]. intros Hin. apply elem_of_cons in Hin as [Hin|Hin].
    + discriminate Hin.
    + by apply elem_of_nil in Hin.
Defined.





(** ** The parser *)

Lemma corner_None obj c :
  corner obj c = None ↔
  ET.find obj ["bndbox"; c] = None ∨
  ∃ e, ET.find obj ["bndbox"; c] = Some e ∧
       (ET.text e = None ∨ ∃ s, ET.text e = Some s ∧ Int.of_string s = None).
Proof.
  unfold corner. destruct (ET.find obj ["bndbox"; c]) as [e|]; simpl.
  - destruct (ET.text e) as [s|] eqn:Ht; simpl; naive_solver.
  - naive_solver.
Qed.

Lemma read_corner_Ok obj c z :
  text_of (ET.find obj ["bndbox"; c]) ≫= int = Ok z ↔ corner obj c = Some z.
Proof.
  unfold corner, text_of, int, mbind, result_bind, mret, mthrow, result_ret,
    result_throw.
  destruct (ET.find obj ["bndbox"; c]) as [e|]; simpl; [|naive_solver].
  destruct (ET.text e) as [s|]; simpl; [|naive_solver].
  destruct (Int.of_string s); naive_solver.
Qed.

Lemma read_corner_Raise obj c e :
  text_of (ET.find obj ["bndbox"; c]) ≫= int = Raise e → corner obj c = None.
Proof.
  intros H. destruct (corner obj c) as [z|] eqn:Hz; [|done].
  apply read_corner_Ok in Hz. congruence.
Qed.

Lemma obj_info_Ok obj info : obj_info obj = Ok info ↔ has_fields obj info.
Proof.
  unfold obj_info, has_fields. split.
  - intros (name & Hname & H)%result_bind_Ok.
    apply result_bind_Ok in H as (a & Ha%read_corner_Ok & H).
    apply result_bind_Ok in H as (b & Hb%read_corner_Ok & H).
    apply result_bind_Ok in H as (c & Hc%read_corner_Ok & H).
    apply result_bind_Ok in H as (d & Hd%read_corner_Ok & [= <-]).
    destruct (ET.find obj ["name"]) as [en|]; [|discriminate Hname].
    injection Hname as <-. by exists en.
  - intros (en & Hen & Hname & Ha & Hb & Hc & Hd).
    apply read_corner_Ok in Ha, Hb, Hc, Hd.
    apply result_bind_Ok. exists (ET.text en). split; [by rewrite Hen|].
    apply result_bind_Ok. eexists. split; [exact Ha|].
    apply result_bind_Ok. eexists. split; [exact Hb|].
    apply result_bind_Ok. eexists. split; [exact Hc|].
    apply result_bind_Ok. eexists. split; [exact Hd|].
    destruct info as [n [a b c d]]. simpl in *. by subst.
Qed.

Lemma obj_info_Raise obj e : obj_info obj = Raise e → lacks_field obj.
Proof.
  unfold obj_info, lacks_field.
  intros [Hname|(name & _ & H)]%result_bind_Raise.
  { left. by destruct (ET.find obj ["name"]). }
  right.
  apply result_bind_Raise in H as [H%read_corner_Raise|(a & _ & H)]; [by left|].
  right.
  apply result_bind_Raise in H as [H%read_corner_Raise|(b & _ & H)]; [by left|].
  right.
  apply result_bind_Raise in H as [H%read_corner_Raise|(c & _ & H)]; [by left|].
  right.
  apply result_bind_Raise in H as [H%read_corner_Raise|(d & _ & H)]; [done|].
  discriminate H.
Qed.


Lemma parse_objects_Ok objs acc anns :
  parse_objects objs acc = Ok anns ↔
  ∃ new, anns = acc ++ new ∧ Forall2 has_fields objs new.
Proof.
  revert acc. induction objs as [|obj rest IH]; intros acc; simpl.
  - split.
    + intros [= <-]. exists []. by rewrite app_nil_r.
    + intros (new & -> & ->%Forall2_nil_inv_l). by rewrite app_nil_r.
  - rewrite result_bind_Ok. split.
    + intros (info & Hinfo%obj_info_Ok & (new & -> & Hnew)%IH).
      exists (info :: new). rewrite <-app_assoc. split; [done|by constructor].
    + intros (new & -> & (info & new' & Hinfo & Hnew & ->)%Forall2_cons_inv_l).
      exists info. split; [by apply obj_info_Ok|].
      apply IH. exists new'. by rewrite <-app_assoc.
Qed.

Lemma parse_objects_Raise objs acc e :
  parse_objects objs acc = Raise e → Exists lacks_field objs.
Proof.
  revert acc. induction objs as [|obj rest IH]; intros acc; simpl; [done|].
  intros [H%obj_info_Raise|(info & _ & H%IH)]%result_bind_Raise.
  - by apply Exists_cons_hd.
  - by apply Exists_cons_tl.
Qed.



Example parse_in_order :
  parse_root (Elem "annotation" None
                [halcon_object "cat" "10" "10" "60" "40";
                 Elem "note" None [];
                 halcon_object "dog" " 1" "-2" "+3" "4_0"]) =
  Ok [Obj.mk (Some "cat") (BndBox.mk 10 10 60 40);
      Obj.mk (Some "dog") (BndBox.mk 1 (-2) 3 40)].
Proof. reflexivity. Qed.

(** A later node without [y2] fails the parse of the whole file, and so
    does a corner that is no integer. *)
Example parse_missing_field :
  parse_root (Elem "annotation" None
                [halcon_object "cat" "10" "10" "60" "40";
                 Elem "object" None
                   [leaf "name" "dog";
                    Elem "bndbox" None [leaf "x1" "1"; leaf "y1" "2"; leaf "x2" "3"]]]) =
  Raise AttributeError.
Proof. reflexivity. Qed.

Example parse_not_integer :
  parse_root (Elem "annotation" None [halcon_object "cat" "10" "10.5" "60" "40"]) =
  Raise ValueError.
Proof. reflexivity. Qed.

(** A [name] element without text is present: the annotation carries [None]. *)
Example parse_empty_name :
  parse_root (Elem "annotation" None
                [Elem "object" None
                   [Elem "name" None [];
                    Elem "bndbox" None
                      [leaf "x1" "1"; leaf "y1" "2"; leaf "x2" "3"; leaf "y2" "4"]]]) =
  Ok [Obj.mk None (BndBox.mk 1 2 3 4)].
Proof. reflexivity. Qed.

(** ** Integers and their decimal text *)

Lemma digit_char_spec (d : Z) :
  (0 ≤ d < 10)%Z →
  Int.is_digit (Int.digit_char d) = true ∧
  Int.digit_val (Int.digit_char d) = d ∧
  Int.is_space (Int.digit_char d) = false ∧
  Int.digit_char d ≠ "-"%char ∧ Int.digit_char d ≠ "+"%char.
Proof.
  intros Hd.
  assert (d = 0 ∨ d = 1 ∨ d = 2 ∨ d = 3 ∨ d = 4 ∨ d = 5 ∨ d = 6 ∨ d = 7 ∨
          d = 8 ∨ d = 9)%Z as Hcases by lia.
  destruct Hcases as [->|[->|[->|[->|[->|[->|[->|[->|[->| ->]]]]]]]]];
    by vm_compute.
Qed.

Lemma digits_of_acc fuel n rest p :
  (0 ≤ n < 2 ^ Z.of_nat (S fuel))%Z →
  Int.digits_acc (Int.digits_of (S fuel) n rest) 0 p = Int.digits_acc rest n true.
Proof.
  revert n rest p. induction fuel as [|fuel IH]; intros n rest p Hn.
  - assert ((n <? 10)%Z = true) as Hlt by (apply Z.ltb_lt; simpl in Hn; lia).
    assert (0 ≤ n `mod` 10 < 10)%Z as Hd by (apply Z.mod_pos_bound; lia).
    destruct (digit_char_spec _ Hd) as (Hdig & Hval & _).
    cbn [Int.digits_of]. rewrite Hlt. cbn [Int.digits_acc]. rewrite Hdig, Hval.
    apply Z.ltb_lt in Hlt. f_equal. rewrite Z.mod_small; lia.
  - remember (S fuel) as fuel1. cbn [Int.digits_of].
    assert (0 ≤ n `mod` 10 < 10)%Z as Hd by (apply Z.mod_pos_bound; lia).
    destruct (digit_char_spec _ Hd) as (Hdig & Hval & _).
    destruct (n <? 10)%Z eqn:Hlt.
    + apply Z.ltb_lt in Hlt. cbn [Int.digits_acc]. rewrite Hdig, Hval.
      f_equal. rewrite Z.mod_small; lia.
    + apply Z.ltb_ge in Hlt. subst fuel1. rewrite IH.
      * cbn [Int.digits_acc]. rewrite Hdig, Hval. f_equal.
        pose proof (Z.div_mod n 10). lia.
      * rewrite (Nat2Z.inj_succ (S fuel)), Z.pow_succ_r in Hn by lia.
        split; [apply Z.div_pos; lia|].
        apply Z.div_lt_upper_bound; lia.
Qed.

Lemma digits_of_all_digits fuel n rest :
  (0 ≤ n)%Z → all_digits rest = true →
  all_digits (Int.digits_of fuel n rest) = true.
Proof.
  revert n rest. induction fuel as [|fuel IH]; intros n rest Hn Hrest; [done|].
  cbn [Int.digits_of].
  assert (0 ≤ n `mod` 10 < 10)%Z as Hd by (apply Z.mod_pos_bound; lia).
  destruct (digit_char_spec _ Hd) as (Hdig & _ & Hsp & _).
  assert (all_digits (String (Int.digit_char (n `mod` 10)) rest) = true) as Hacc.
  { cbn [all_digits]. by rewrite Hdig, Hsp, Hrest. }
  destruct (n <? 10)%Z; [done|].
  apply IH; [apply Z.div_pos; lia|done].
Qed.

Lemma digits_of_head fuel n rest :
  (0 ≤ n)%Z →
  ∃ d r, (0 ≤ d < 10)%Z ∧
         Int.digits_of (S fuel) n rest = String (Int.digit_char d) r.
Proof.
  revert n rest. induction fuel as [|fuel IH]; intros n rest Hn.
  - cbn [Int.digits_of].
    exists (n `mod` 10)%Z. eexists. split; [apply Z.mod_pos_bound; lia|].
    by destruct (n <? 10)%Z.
  - remember (S fuel) as fuel1. cbn [Int.digits_of].
    destruct (n <? 10)%Z.
    + exists (n `mod` 10)%Z. eexists. split; [apply Z.mod_pos_bound; lia|done].
    + subst fuel1. apply IH. apply Z.div_pos; lia.
Qed.

Lemma all_digits_strip s :
  all_digits s = true → Int.lstrip s = s ∧ Int.rstrip s = s.
Proof.
  induction s as [|c r IH]; [done|]. cbn [all_digits].
  intros [[Hdig Hsp%negb_true_iff]%andb_prop Hr]%andb_prop.
  destruct (IH Hr) as [_ Hrs]. cbn [Int.lstrip Int.rstrip].
  by rewrite Hsp, Hrs.
Qed.

Lemma of_string_unsigned c r :
  c ≠ "-"%char → c ≠ "+"%char →
  Int.lstrip (String c r) = String c r → Int.rstrip (String c r) = String c r →
  Int.of_string (String c r) = Int.digits_acc (String c r) 0 false.
Proof.
  intros Hm Hp Hl Hr. unfold Int.of_string. rewrite Hl, Hr.
  destruct c as [[] [] [] [] [] [] [] []]; done.
Qed.

Lemma digits_spec n :
  (0 ≤ n)%Z →
  all_digits (Int.digits n) = true ∧
  Int.digits_acc (Int.digits n) 0 false = Some n ∧
  ∃ d r, (0 ≤ d < 10)%Z ∧ Int.digits n = String (Int.digit_char d) r.
Proof.
  intros Hn. unfold Int.digits. split_and!.
  - by apply digits_of_all_digits.
  - rewrite digits_of_acc; [done|]. split; [done|].
    destruct (decide (n = 0%Z)) as [->|Hn0]; [done|].
    rewrite Nat2Z.inj_succ, Z2Nat.id by apply Z.log2_nonneg.
    apply Z.log2_spec. lia.
  - by apply digits_of_head.
Qed.

(** [int(str(z)) == z] *)
Lemma of_string_to_string z : Int.of_string (Int.to_string z) = Some z.
Proof.
  unfold Int.to_string. destruct (z <? 0)%Z eqn:Hz.
  - apply Z.ltb_lt in Hz.
    destruct (digits_spec (- z)) as (Hall & Hacc & _); [lia|].
    destruct (all_digits_strip _ Hall) as [_ Hr].
    unfold Int.of_string. cbn [Int.lstrip]. change (Int.is_space "-") with false.
    cbn [Int.rstrip]. rewrite Hr. change (Int.is_space "-") with false.
    simpl. rewrite Hacc. simpl. f_equal. lia.
  - apply Z.ltb_ge in Hz.
    destruct (digits_spec z Hz) as (Hall & Hacc & d & r & Hd & Heq).
    destruct (all_digits_strip _ Hall) as [Hl Hr].
    destruct (digit_char_spec _ Hd) as (_ & _ & _ & Hm & Hp).
    rewrite Heq in *. by rewrite of_string_unsigned.
Qed.

(** ** Strings and paths *)

Lemma app_cons c r t : String c r +:+ t = String c (r +:+ t).
Proof. reflexivity. Qed.

Lemma app_nil_l_str t : "" +:+ t = t.
Proof. reflexivity. Qed.

Lemma app_nil_r_str s : s +:+ "" = s.
Proof. induction s as [|c r IH]; [done|]. by rewrite app_cons, IH. Qed.

Lemma app_assoc_str a b c : (a +:+ b) +:+ c = a +:+ b +:+ c.
Proof. induction a as [|x a IH]; [done|]. by rewrite !app_cons, IH. Qed.

Lemma app_length_str a b :
  String.length (a +:+ b) = (String.length a + String.length b)%nat.
Proof. induction a as [|x a IH]; [done|]. rewrite app_cons. simpl. by rewrite IH. Qed.

Lemma app_inj_r a b t : a +:+ t = b +:+ t → a = b.
Proof.
  revert b. induction a as [|x a IH]; intros [|y b] H.
  - done.
  - apply (f_equal String.length) in H.
    rewrite !app_length_str in H. simpl in H. lia.
  - apply (f_equal String.length) in H.
    rewrite !app_length_str in H. simpl in H. lia.
  - rewrite !app_cons in H. injection H as -> H. f_equal. by apply IH.
Qed.

Lemma contains_app c a b :
  Str.contains c (a +:+ b) = Str.contains c a || Str.contains c b.
Proof.
  induction a as [|x a IH]; [done|]. rewrite app_cons. simpl.
  by rewrite IH, orb_assoc.
Qed.

Lemma take_drop_str n s : Str.take n s +:+ Str.drop n s = s.
Proof.
  revert s. induction n as [|n IH]; intros [|c r]; simpl; try done.
  by rewrite app_cons, IH.
Qed.

Lemma splitext_app p : (Path.splitext p).1 +:+ (Path.splitext p).2 = p.
Proof.
  unfold Path.splitext. repeat case_match; simpl;
    auto using take_drop_str, app_nil_r_str.
Qed.

(** The stem of a name is an initial part of the name. *)
Lemma stem_prefix f : ∃ ext, f = stem f +:+ ext.
Proof. exists (Path.splitext f).2. symmetry. apply splitext_app. Qed.

Lemma stem_no_slash f : Str.contains "/" f = false → Str.contains "/" (stem f) = false.
Proof.
  destruct (stem_prefix f) as [ext Hf]. rewrite Hf at 1.
  rewrite contains_app. by intros [? _]%orb_false_elim.
Qed.

Lemma startswith_slash s :
  Str.contains "/" s = false → Str.startswith s "/" = false.
Proof.
  destruct s as [|c r]; [done|]. simpl.
  intros [Hc%bool_decide_eq_false _]%orb_false_elim.
  rewrite bool_decide_eq_false_2; [done|]. by intros <-.
Qed.

Lemma endswith_app_cons a c r suf :
  String.length suf = 1%nat →
  Str.endswith (a +:+ String c r) suf = Str.endswith (String c r) suf.
Proof.
  intros Hsuf. induction a as [|x a IH]; [done|].
  rewrite app_cons. cbn [Str.endswith]. rewrite IH.
  rewrite bool_decide_eq_false_2; [done|].
  intros H. apply (f_equal String.length) in H. simpl in H.
  rewrite app_length_str, Hsuf in H. simpl in H. lia.
Qed.

Lemma join2_relative d x :
  Str.startswith x "/" = false → Path.join2 d x = dir_prefix d +:+ x.
Proof.
  intros Hx. unfold Path.join2, dir_prefix. rewrite Hx.
  destruct (bool_decide (d = "") || Str.endswith d "/"); [done|].
  by rewrite app_assoc_str.
Qed.

Lemma voc_xml_path_relative output_dir s :
  Str.contains "/" s = false →
  voc_xml_path output_dir s = dir_prefix output_dir +:+ "Annotations/" +:+ s +:+ ".xml".
Proof.
  intros Hs. unfold voc_xml_path, Path.join. simpl.
  rewrite (join2_relative output_dir) by done.
  assert (Str.startswith (s +:+ ".xml") "/" = false) as Hx.
  { apply startswith_slash. by rewrite contains_app, Hs. }
  unfold Path.join2 at 1. rewrite Hx.
  change "Annotations" with (String "A" "nnotations").
  rewrite (endswith_app_cons _ "A" "nnotations" "/") by done.
  rewrite bool_decide_eq_false_2.
  - simpl. by rewrite app_assoc_str.
  - intros H. apply (f_equal String.length) in H.
    rewrite app_length_str in H. simpl in H. lia.
Qed.

Lemma voc_trainval_path_relative output_dir :
  voc_trainval_path output_dir =
  dir_prefix output_dir +:+ "ImageSets/Main/trainval.txt".
Proof. unfold voc_trainval_path, Path.join. simpl. by apply join2_relative. Qed.

Lemma voc_xml_path_inj output_dir s s' :
  Str.contains "/" s = false → Str.contains "/" s' = false →
  voc_xml_path output_dir s = voc_xml_path output_dir s' → s = s'.
Proof.
  intros Hs Hs'. rewrite !voc_xml_path_relative by done.
  intros H%String.app_inj%String.app_inj. by apply app_inj_r in H.
Qed.

Lemma voc_xml_path_trainval output_dir s :
  Str.contains "/" s = false →
  voc_xml_path output_dir s ≠ voc_trainval_path output_dir.
Proof.
  intros Hs. rewrite voc_xml_path_relative, voc_trainval_path_relative by done.
  intros H%String.app_inj. discriminate H.
Qed.

(** ** What the VOC export writes *)

Lemma voc_object_fields b : voc_fields b (voc_object b).
Proof.
  unfold voc_fields, corner. cbv zeta.
  assert (∀ c z,
    ET.find (voc_object b) ["bndbox"; c] ≫= ET.text = Some (Int.to_string z) →
    (ET.find (voc_object b) ["bndbox"; c] ≫= ET.text) ≫= Int.of_string = Some z)
    as Hread.
  { intros c z ->. simpl. apply of_string_to_string. }
  split_and!; try reflexivity; by apply Hread.
Qed.

Lemma findall_SubElement root child t :
  ET.findall (ET.SubElement root child) t =
  ET.findall root t ++ (if decide (ET.tag child = t) then [child] else []).
Proof.
  unfold ET.findall, ET.SubElement. simpl. by rewrite filter_app.
Qed.

Lemma voc_add_objects_findall root anns :
  ET.findall (voc_add_objects root anns) "object" =
  ET.findall root "object" ++ (voc_object <$> anns).
Proof.
  unfold voc_add_objects. revert root.
  induction anns as [|b rest IH]; intros root; simpl.
  - by rewrite app_nil_r.
  - rewrite IH, findall_SubElement, <-app_assoc. done.
Qed.

Lemma voc_tree_objects img_file img_path w h anns :
  ET.findall (voc_tree img_file img_path w h anns) "object" = voc_object <$> anns.
Proof. unfold voc_tree. by rewrite voc_add_objects_findall. Qed.

Lemma voc_tree_fields img_file img_path w h anns :
  Forall2 voc_fields anns (ET.findall (voc_tree img_file img_path w h anns) "object").
Proof.
  rewrite voc_tree_objects. apply Forall2_fmap_r, Forall2_same_length_lookup.
  split; [done|]. intros i b b' Hb Hb'. assert (b' = b) as -> by congruence.
  apply voc_object_fields.
Qed.

Lemma voc_image_Ok img_dir ann_dir output_dir f fs fs1 :
  voc_image img_dir ann_dir output_dir f fs = (Ok (), fs1) ↔
  ∃ w h anns,
    size_at fs (Path.join img_dir [f]) = Some (w, h) ∧
    anns_at fs (ann_path_of ann_dir (stem f)) = Some anns ∧
    (voc_xml_path output_dir (stem f) ∉ readonly fs) ∧
    fs1 = mkfs (<[voc_xml_path output_dir (stem f) :=
                   XmlFile (voc_tree f (Path.join img_dir [f]) w h anns)]> (files fs))
               (dirs fs) (readonly fs).
Proof.
  unfold voc_image. split.
  - intros ([w h] & fs2 & [Hsz ->]%Image_open_size_Ok & H)%M_bind_Ok.
    apply M_bind_Ok in H as (anns & fs2 & [Hanns ->]%parse_halcon_annotation_Ok & H).
    apply write_file_Ok in H as [Hro ->]. by exists w, h, anns.
  - intros (w & h & anns & Hsz & Hanns & Hro & ->).
    apply M_bind_Ok. exists (w, h), fs. split; [by apply Image_open_size_Ok|].
    apply M_bind_Ok. exists anns, fs.
    split; [by apply parse_halcon_annotation_Ok|]. by apply write_file_Ok.
Qed.

Lemma voc_loop_ids img_dir ann_dir output_dir listing ids fs ids' fs' :
  voc_loop img_dir ann_dir output_dir listing ids fs = (Ok ids', fs') →
  ids' = ids ++ (stem <$> filter (λ f, accepted f = true) listing).
Proof.
  revert ids fs. induction listing as [|g rest IH]; intros ids fs; simpl.
  - intros [= <- _]. by rewrite app_nil_r.
  - rewrite filter_cons. destruct (accepted g) eqn:Hg; simpl.
    + intros ([] & fs1 & _ & H%IH)%M_bind_Ok. by rewrite <-app_assoc in H.
    + apply IH.
Qed.

Lemma anns_at_ext fs fs' path :
  files fs' !! path = files fs !! path → anns_at fs' path = anns_at fs path.
Proof. unfold anns_at. by intros ->. Qed.

(** The state after the loop, when directory entries are plain names and no
    annotation file that is read is one of the XML files that are written:
    only XML paths of accepted entries have changed, and each holds the tree
    of the annotations parsed from the entry's annotation file. *)
Lemma voc_loop_final img_dir ann_dir output_dir listing :
  Forall (λ g, Str.contains "/" g = false) listing →
  (∀ g g', g ∈ listing → g' ∈ listing →
     voc_xml_path output_dir (stem g) ≠ ann_path_of ann_dir (stem g')) →
  ∀ ids fs ids' fs',
    voc_loop img_dir ann_dir output_dir listing ids fs = (Ok ids', fs') →
    (∀ p, (∀ g, g ∈ listing → accepted g = true →
             voc_xml_path output_dir (stem g) ≠ p) →
          files fs' !! p = files fs !! p) ∧
    (∀ f, f ∈ listing → accepted f = true →
       ∃ g w h anns,
         g ∈ listing ∧ stem g = stem f ∧
         anns_at fs (ann_path_of ann_dir (stem f)) = Some anns ∧
         files fs' !! voc_xml_path output_dir (stem f) =
           Some (XmlFile (voc_tree g (Path.join img_dir [g]) w h anns))).
Proof.
  induction listing as [|g rest IH]; intros Hnames Hna ids fs ids' fs'.
  { simpl. intros [= _ <-]. split; [done|]. intros f Hf. by apply elem_of_nil in Hf. }
  apply Forall_cons in Hnames as [Hg Hrest].
  assert (∀ a b, a ∈ rest → b ∈ rest →
            voc_xml_path output_dir (stem a) ≠ ann_path_of ann_dir (stem b))
    as Hna_rest.
  { intros a b Ha Hb. apply Hna; by apply elem_of_cons; right. }
  specialize (IH Hrest Hna_rest).
  cbn [voc_loop]. destruct (accepted g) eqn:Hacc; cbn [negb].
  - (* g is processed *)
    intros ([] & fs1 & Hstep & Hloop)%M_bind_Ok.
    apply voc_image_Ok in Hstep as (w & h & anns & Hsz & Hanns & Hro & ->).
    destruct (IH _ _ _ _ Hloop) as [Hframe Hwritten]. split.
    + intros p Hp. rewrite Hframe.
      * simpl. apply lookup_insert_ne. apply Hp; [by apply elem_of_cons; left|done].
      * intros g' Hg' Hacc'. apply Hp; [by apply elem_of_cons; right|done].
    + intros f Hf Haccf.
      destruct (decide (Exists (λ g', accepted g' = true ∧ stem g' = stem f) rest))
        as [Hlater|Hlast].
      * apply Exists_exists in Hlater as (g' & Hg' & Hacc' & Hstem).
        destruct (Hwritten g' Hg' Hacc') as (g'' & w' & h' & anns' & ? & ? & Ha & Hfile).
        exists g'', w', h', anns'. rewrite <-Hstem. split_and!.
        -- by apply elem_of_cons; right.
        -- done.
        -- rewrite <-Ha. symmetry. apply anns_at_ext. simpl.
           apply lookup_insert_ne. apply Hna;
             [by apply elem_of_cons; left|by apply elem_of_cons; right].
        -- done.
      * assert (f = g) as ->.
        { apply elem_of_cons in Hf as [->|Hf]; [done|]. exfalso.
          apply Hlast, Exists_exists. by exists f. }
        exists g, w, h, anns. split_and!; [by apply elem_of_cons; left|done..|].
        rewrite Hframe; [apply lookup_insert_eq|].
        intros g' Hg' Hacc' Heq. apply Hlast, Exists_exists.
        exists g'. split_and!; [done..|].
        apply (voc_xml_path_inj output_dir); [| |done].
        -- apply stem_no_slash. rewrite Forall_forall in Hrest. by apply Hrest.
        -- by apply stem_no_slash.
  - (* g is skipped *)
    intros Hloop. destruct (IH _ _ _ _ Hloop) as [Hframe Hwritten]. split.
    + intros p Hp. apply Hframe.
      intros g' Hg' Hacc'. apply Hp; [by apply elem_of_cons; right|done].
    + intros f Hf Haccf. apply elem_of_cons in Hf as [->|Hf]; [congruence|].
      destruct (Hwritten f Hf Haccf) as (g' & w & h & anns & ? & ? & ? & ?).
      exists g', w, h, anns. split_and!; [by apply elem_of_cons; right|done..].
Qed.

Lemma convert_to_voc_Ok img_dir ann_dir output_dir class_names fs fs' :
  convert_to_voc img_dir ann_dir output_dir class_names fs = (Ok (), fs') ↔
  ∃ listing image_ids fs1,
    dirs fs !! img_dir = Some listing ∧
    voc_loop img_dir ann_dir output_dir listing [] fs = (Ok image_ids, fs1) ∧
    (voc_trainval_path output_dir ∉ readonly fs1) ∧
    fs' = mkfs (<[voc_trainval_path output_dir :=
                   TextFile (Str.join (String "010" "") image_ids)]> (files fs1))
               (dirs fs1) (readonly fs1).
Proof.
  unfold convert_to_voc, makedirs. split.
  - intros (_ & fa & [= <-] & H1)%M_bind_Ok.
    apply M_bind_Ok in H1 as (_ & fb & [= <-] & H2).
    apply M_bind_Ok in H2 as (_ & fc & [= <-] & H3).
    apply M_bind_Ok in H3 as (listing & fd & [Hdir ->]%listdir_Ok & H4).
    apply M_bind_Ok in H4 as (ids & fs1 & Hloop & [Hro ->]%write_file_Ok).
    subst. by exists listing, ids, fs1.
  - intros (listing & ids & fs1 & Hdir & Hloop & Hro & ->).
    do 3 (apply M_bind_Ok; exists (), fs; split; [done|]).
    apply M_bind_Ok. exists listing, fs. split; [by apply listdir_Ok|].
    apply M_bind_Ok. exists ids, fs1. split; [done|]. by apply write_file_Ok.
Qed.

(** ** The claims about the VOC export *)

(** C8: the XML written for an image holds, for every annotation parsed
    from the image's annotation file, an [object] block whose xmin, ymin,
    xmax, ymax are the decimal text of the parsed x1, y1, x2, y2 and read
    back as the same integers.  This holds of the file the loop body writes,
    in any state; and of the file found at [Annotations/<id>.xml] when the
    whole export has returned, the directory entries being plain names and
    no annotation file that is read being one of the XML files written. *)
Theorem voc_boxes_verbatim img_dir ann_dir output_dir :
  (∀ f fs fs1,
     voc_image img_dir ann_dir output_dir f fs = (Ok (), fs1) →
     ∃ anns root,
       anns_at fs (ann_path_of ann_dir (stem f)) = Some anns ∧
       files fs1 !! voc_xml_path output_dir (stem f) = Some (XmlFile root) ∧
       Forall2 voc_fields anns (ET.findall root "object")) ∧
  (∀ class_names fs fs' listing f,
     convert_to_voc img_dir ann_dir output_dir class_names fs = (Ok (), fs') →
     dirs fs !! img_dir = Some listing →
     Forall (λ g, Str.contains "/" g = false) listing →
     (∀ g g', g ∈ listing → g' ∈ listing →
        voc_xml_path output_dir (stem g) ≠ ann_path_of ann_dir (stem g')) →
     f ∈ listing → accepted f = true →
     ∃ anns root,
       anns_at fs (ann_path_of ann_dir (stem f)) = Some anns ∧
       files fs' !! voc_xml_path output_dir (stem f) = Some (XmlFile root) ∧
       Forall2 voc_fields anns (ET.findall root "object")).
Proof.
  split.
  - intros f fs fs1 (w & h & anns & _ & Hanns & _ & ->)%voc_image_Ok.
    exists anns, (voc_tree f (Path.join img_dir [f]) w h anns).
    split_and!; [done|apply lookup_written|apply voc_tree_fields].
  - intros class_names fs fs' listing f Hrun Hdir Hnames Hna Hf Hacc.
    apply convert_to_voc_Ok in Hrun
      as (listing' & ids & fs1 & Hdir' & Hloop & _ & ->).
    assert (listing' = listing) as -> by congruence.
    destruct (voc_loop_final _ _ _ _ Hnames Hna _ _ _ _ Hloop) as [_ Hwritten].
    destruct (Hwritten f Hf Hacc) as (g & w & h & anns & _ & _ & Hanns & Hfile).
    exists anns, (voc_tree g (Path.join img_dir [g]) w h anns).
    split_and!; [done| |apply voc_tree_fields].
    simpl. rewrite lookup_insert_ne; [done|].
    intros Heq. symmetry in Heq. revert Heq. apply voc_xml_path_trainval.
    apply stem_no_slash. rewrite Forall_forall in Hnames. by apply Hnames.
Qed.

Lemma voc_boxes_verbatim_witness :
  let fs := sample_fs2 ["a.jpg"; "a.png"] in
  (∃ anns root,
     anns_at fs (ann_path_of "anns" (stem "a.jpg")) = Some anns ∧
     files (voc_image "imgs" "anns" "voc" "a.jpg" fs).2 !!
       voc_xml_path "voc" (stem "a.jpg") = Some (XmlFile root) ∧
     Forall2 voc_fields anns (ET.findall root "object")) ∧
  (∃ anns root,
     anns_at fs (ann_path_of "anns" (stem "a.png")) = Some anns ∧
     files (convert_to_voc "imgs" "anns" "voc" [] fs).2 !!
       voc_xml_path "voc" (stem "a.png") = Some (XmlFile root) ∧
     Forall2 voc_fields anns (ET.findall root "object")).
Proof.
  intros fs. split.
  - apply (proj1 (voc_boxes_verbatim "imgs" "anns" "voc") "a.jpg" fs).
    vm_compute. reflexivity.
  - apply (proj2 (voc_boxes_verbatim "imgs" "anns" "voc") [] fs _
             ["a.jpg"; "a.png"] "a.png").
    + vm_compute. reflexivity.
    + vm_compute. reflexivity.
    + repeat constructor.
    + intros g g' Hg Hg'. rewrite !elem_of_cons, elem_of_nil in Hg, Hg'.
      destruct Hg as [->|[->|[]]], Hg' as [->|[->|[]]]; vm_compute; discriminate.
    + apply elem_of_cons. right. apply elem_of_cons. by left.
    + vm_compute. reflexivity.
Defined.

Lemma split_no_sep sep s :
  Str.contains sep s = false → Str.split sep s = [s].
Proof.
  induction s as [|c r IH]; [done|]. simpl.
  intros [Hc Hr]%orb_false_elim. by rewrite Hc, (IH Hr).
Qed.

Lemma split_app_sep sep s t :
  Str.contains sep s = false →
  Str.split sep (s +:+ String sep t) = s :: Str.split sep t.
Proof.
  induction s as [|c r IH].
  - intros _. rewrite app_nil_l_str. simpl. by rewrite bool_decide_eq_true_2.
  - simpl. intros [Hc Hr]%orb_false_elim. by rewrite Hc, (IH Hr).
Qed.

(** Splitting the newline-join of names without newlines gives the names
    back. *)
Lemma split_join sep ids :
  ids ≠ [] → Forall (λ i, Str.contains sep i = false) ids →
  Str.split sep (Str.join (String sep "") ids) = ids.
Proof.
  induction ids as [|x [|y r] IH]; intros Hne Hall; [done|..].
  - apply Forall_cons in Hall as [Hx _]. by apply split_no_sep.
  - apply Forall_cons in Hall as [Hx Hrest].
    change (Str.join (String sep "") (x :: y :: r))
      with (x +:+ String sep "" +:+ Str.join (String sep "") (y :: r)).
    rewrite app_cons, app_nil_l_str, split_app_sep by done.
    f_equal. by apply IH.
Qed.

(** C2, as the code has it: the written trainval.txt is the newline-join,
    in enumeration order and with the last line unterminated, of the stems
    [os.path.splitext] gives for the accepted image files, one per accepted
    file; when no stem contains a newline its lines are those stems; a line
    is repeated exactly when two accepted files have the same stem. *)
Theorem voc_trainval img_dir ann_dir output_dir class_names fs fs' :
  convert_to_voc img_dir ann_dir output_dir class_names fs = (Ok (), fs') →
  ∃ listing,
    dirs fs !! img_dir = Some listing ∧
    let images := filter (λ f, accepted f = true) listing in
    let ids := stem <$> images in
    files fs' !! voc_trainval_path output_dir =
      Some (TextFile (Str.join (String "010" "") ids)) ∧
    length ids = length images ∧
    (ids ≠ [] → Forall (λ i, Str.contains "010" i = false) ids →
     Str.split "010" (Str.join (String "010" "") ids) = ids) ∧
    (NoDup ids ↔
     ∀ j k f g, images !! j = Some f → images !! k = Some g →
                stem f = stem g → j = k).
Proof.
  intros (listing & ids & fs1 & Hdir & Hloop & _ & ->)%convert_to_voc_Ok.
  apply voc_loop_ids in Hloop. rewrite app_nil_l in Hloop. subst ids.
  exists listing. split; [done|]. cbv zeta. split_and!.
  - apply lookup_written.
  - apply length_fmap.
  - apply split_join.
  - rewrite NoDup_alt. split.
    + intros H j k f g Hj Hk Hfg. apply (H j k (stem f)).
      * by rewrite list_lookup_fmap, Hj.
      * by rewrite list_lookup_fmap, Hk, Hfg.
    + intros H j k x. rewrite !list_lookup_fmap.
      intros (f & Hf & ->)%fmap_Some (g & Hg & Hfg)%fmap_Some.
      by apply (H j k f g).
Qed.

Lemma voc_trainval_witness :
  ∃ listing,
    dirs (sample_fs2 ["notes.txt"; "a.jpg"; "a.png"]) !! "imgs" = Some listing ∧
    let images := filter (λ f, accepted f = true) listing in
    let ids := stem <$> images in
    files (convert_to_voc "imgs" "anns" "voc" ["cat"]
             (sample_fs2 ["notes.txt"; "a.jpg"; "a.png"])).2 !!
      voc_trainval_path "voc" =
      Some (TextFile (Str.join (String "010" "") ids)) ∧
    length ids = length images ∧
    (ids ≠ [] → Forall (λ i, Str.contains "010" i = false) ids →
     Str.split "010" (Str.join (String "010" "") ids) = ids) ∧
    (NoDup ids ↔
     ∀ j k f g, images !! j = Some f → images !! k = Some g →
                stem f = stem g → j = k).
Proof.
  apply (voc_trainval "imgs" "anns" "voc" ["cat"]
           (sample_fs2 ["notes.txt"; "a.jpg"; "a.png"])).
  vm_compute. reflexivity.
Defined.

(** C2 as stated fails: with [a.jpg] and [a.png] in the directory the export
    returns and trainval.txt holds the line [a] twice. *)
Lemma voc_trainval_counterexample :
  ∃ fs' s,
    convert_to_voc "imgs" "anns" "voc" ["cat"] (sample_fs2 ["a.jpg"; "a.png"]) =
      (Ok (), fs') ∧
    filter (λ f, accepted f = true) ["a.jpg"; "a.png"] = ["a.jpg"; "a.png"] ∧
    files fs' !! "voc/ImageSets/Main/trainval.txt" = Some (TextFile s) ∧
    Str.split "010" s = ["a"; "a"] ∧
    ¬ NoDup (Str.split "010" s).
Proof.
  eexists _, _. split_and!; [vm_compute; reflexivity|done|vm_compute; reflexivity| |].
  - reflexivity.
  - intros H. apply NoDup_cons in H as [H _]. apply H, elem_of_cons. by left.
Qed.

(** ** The exceptions of the VOC export *)

Lemma raises_only_bind {A B} (P : exn → Prop) (m : M A) (f : A → M B) :
  raises_only P m → (∀ a, raises_only P (f a)) → raises_only P (m ≫= f).
Proof.
  intros Hm Hf fs e fs' [H|(a & fs1 & _ & H)]%M_bind_Raise.
  - by eapply Hm.
  - by eapply Hf.
Qed.

Lemma raises_only_ret {A} (P : exn → Prop) (a : A) : raises_only P (mret a).
Proof. by intros fs e fs' [=]. Qed.

Lemma obj_info_exn obj e :
  obj_info obj = Raise e → e = AttributeError ∨ e = TypeError ∨ e = ValueError.
Proof.
  assert (∀ o e, text_of o = Raise e → e = AttributeError) as Htext.
  { intros [x|] e'; [done|]. by intros [= <-]. }
  assert (∀ o e, text_of o ≫= int = Raise e →
                 e = AttributeError ∨ e = TypeError ∨ e = ValueError) as Hint.
  { intros o e' [H%Htext|(t & _ & H)]%result_bind_Raise; [by left|].
    right. unfold int in H. destruct t as [s|].
    - destruct (Int.of_string s); [done|]. injection H as <-. by right.
    - injection H as <-. by left. }
  unfold obj_info.
  intros [H%Htext|(name & _ & H)]%result_bind_Raise; [by left|].
  apply result_bind_Raise in H as [H%Hint|(a & _ & H)]; [done|].
  apply result_bind_Raise in H as [H%Hint|(b & _ & H)]; [done|].
  apply result_bind_Raise in H as [H%Hint|(c & _ & H)]; [done|].
  apply result_bind_Raise in H as [H%Hint|(d & _ & H)]; [done|].
  discriminate H.
Qed.

Lemma parse_objects_exn objs acc e :
  parse_objects objs acc = Raise e →
  e = AttributeError ∨ e = TypeError ∨ e = ValueError.
Proof.
  revert acc. induction objs as [|obj rest IH]; intros acc; simpl; [done|].
  intros [H%obj_info_exn|(info & _ & H%IH)]%result_bind_Raise; done.
Qed.

Lemma parse_halcon_annotation_exn path :
  raises_only (λ e, e ≠ KeyError) (parse_halcon_annotation path).
Proof.
  intros fs e fs'. unfold parse_halcon_annotation. rewrite M_bind_unfold.
  unfold ET_parse, lift.
  destruct (files fs !! path) as [[]|]; try by intros [= <- _].
  intros [= H _]. apply parse_objects_exn in H. naive_solver.
Qed.

Lemma voc_image_exn img_dir ann_dir output_dir f :
  raises_only (λ e, e ≠ KeyError) (voc_image img_dir ann_dir output_dir f).
Proof.
  unfold voc_image. apply raises_only_bind.
  - intros fs e fs'. unfold Image_open_size.
    destruct (files fs !! _) as [[]|]; by intros [= <- _].
  - intros [w h]. apply raises_only_bind; [apply parse_halcon_annotation_exn|].
    intros anns fs e fs' (_ & -> & _)%write_file_Raise. done.
Qed.

Lemma voc_loop_exn img_dir ann_dir output_dir listing ids :
  raises_only (λ e, e ≠ KeyError) (voc_loop img_dir ann_dir output_dir listing ids).
Proof.
  revert ids. induction listing as [|g rest IH]; intros ids; simpl.
  - apply raises_only_ret.
  - destruct (accepted g); simpl; [|apply IH].
    apply raises_only_bind; [apply voc_image_exn|]. intros []. apply IH.
Qed.

(** C10: [convert_to_voc] does not read [class_names]: with any two lists
    the export returns the same result and leaves the same file system, and
    it never raises [KeyError], the exception of an unknown category. *)
Theorem voc_ignores_class_names img_dir ann_dir output_dir class_names1
    class_names2 fs :
  convert_to_voc img_dir ann_dir output_dir class_names1 fs =
  convert_to_voc img_dir ann_dir output_dir class_names2 fs ∧
  ∀ fs', convert_to_voc img_dir ann_dir output_dir class_names1 fs ≠
         (Raise KeyError, fs').
Proof.
  split; [done|]. intros fs' Hrun. revert Hrun.
  assert (raises_only (λ e, e ≠ KeyError)
            (convert_to_voc img_dir ann_dir output_dir class_names1)) as H.
  { unfold convert_to_voc, makedirs.
    do 3 (apply raises_only_bind; [apply raises_only_ret|]; intros []).
    apply raises_only_bind.
    { intros s e s'. unfold listdir. destruct (dirs s !! _); by intros [= <- _]. }
    intros listing. apply raises_only_bind; [apply voc_loop_exn|].
    intros ids s e s' (_ & -> & _)%write_file_Raise. done. }
  intros Hrun. by apply H in Hrun.
Qed.

Lemma voc_ignores_class_names_witness :
  convert_to_voc "imgs" "anns" "voc" ["cat"; "dog"] (sample_fs ["a.jpg"]) =
  convert_to_voc "imgs" "anns" "voc" [] (sample_fs ["a.jpg"]) ∧
  ∀ fs', convert_to_voc "imgs" "anns" "voc" ["cat"; "dog"] (sample_fs ["a.jpg"]) ≠
         (Raise KeyError, fs').
Proof.
  apply (voc_ignores_class_names "imgs" "anns" "voc" ["cat"; "dog"] []
           (sample_fs ["a.jpg"])).
Defined.

(** The VOC export of the sample returns although none of its class names
    is listed, where the COCO export raises. *)
Example voc_unlisted_class :
  (convert_to_voc "imgs" "anns" "voc" [] (sample_fs ["a.jpg"])).1 = Ok () ∧
  (convert_to_coco "imgs" "anns" "out.json" [] (sample_fs ["a.jpg"])).1 =
    Raise KeyError.
Proof. split; vm_compute; reflexivity. Qed.

(** * Further properties of the code *)

(** ** The tables of the COCO document *)

Lemma processed_enumerate_snd (l : list string) (start : Z) :
  (processed (enumerate l start)).*2 = filter (λ f, accepted f = true) l.
Proof.
  revert start. induction l as [|f r IH]; intros start; [done|].
  cbn [enumerate]. rewrite processed_cons, filter_cons.
  destruct (accepted f); simpl; by rewrite IH.
Qed.

Lemma processed_enumerate_sorted (l : list string) (start : Z) :
  Forall (λ i, start ≤ i)%Z (processed (enumerate l start)).*1 ∧
  StronglySorted Z.lt (processed (enumerate l start)).*1.
Proof.
  revert start. induction l as [|f r IH]; intros start.
  { split; constructor. }
  cbn [enumerate]. rewrite processed_cons.
  destruct (IH (start + 1)%Z) as [Hge Hsorted].
  assert (Forall (λ i, start < i)%Z (processed (enumerate r (start + 1))).*1)
    as Hgt.
  { eapply Forall_impl; [exact Hge|]. intros i Hi. simpl in Hi. lia. }
  destruct (accepted f); simpl.
  - split; [|by constructor].
    constructor; [lia|]. eapply Forall_impl; [exact Hgt|]. intros i Hi. simpl in Hi. lia.
  - split; [|done]. eapply Forall_impl; [exact Hgt|]. intros i Hi. simpl in Hi. lia.
Qed.

Lemma Forall2_fmap_eq {A B C} (f : A → C) (g : B → C) (l : list A) (k : list B) :
  Forall2 (λ a b, f a = g b) l k → f <$> l = g <$> k.
Proof.
  induction 1 as [|a b l' k' Hab _ IH]; [done|].
  rewrite !fmap_cons. by rewrite Hab, IH.
Qed.

(** X1: the [images] table of the written document has one entry per
    accepted directory entry, in listing order; an entry records the file
    name and the width and height read from that image file, and the ids
    strictly increase, so no two images share an id. *)
Theorem coco_images_table img_dir ann_dir output_path class_names fs fs' :
  convert_to_coco img_dir ann_dir output_path class_names fs = (Ok (), fs') →
  ∃ listing doc,
    dirs fs !! img_dir = Some listing ∧
    files fs' !! output_path = Some (JsonFile doc) ∧
    ImageInfo.file_name <$> Coco.images doc =
      filter (λ f, accepted f = true) listing ∧
    Forall (λ im, size_at fs (Path.join img_dir [ImageInfo.file_name im]) =
                  Some (ImageInfo.width im, ImageInfo.height im))
           (Coco.images doc) ∧
    StronglySorted Z.lt (ImageInfo.id <$> Coco.images doc) ∧
    NoDup (ImageInfo.id <$> Coco.images doc).
Proof.
  intros (listing & imgs & new & Hdir & -> & Himgs & _)%convert_to_coco_Ok.
  exists listing, (Coco.mk [] [] (categories_of class_names) imgs new).
  assert (ImageInfo.id <$> imgs = (processed (enumerate listing 1)).*1) as Hids.
  { symmetry. apply Forall2_fmap_eq. eapply Forall2_impl; [exact Himgs|].
    intros e im (w & h & _ & _ & ->). done. }
  assert (StronglySorted Z.lt (ImageInfo.id <$> imgs)) as Hsorted.
  { rewrite Hids. apply processed_enumerate_sorted. }
  split_and!; [done|apply lookup_written|simpl..].
  - rewrite <-processed_enumerate_snd with (start := 1%Z).
    symmetry. apply Forall2_fmap_eq. eapply Forall2_impl; [exact Himgs|].
    intros e im (w & h & _ & _ & ->). done.
  - apply Forall_forall. intros im Him.
    apply list_elem_of_lookup_1 in Him as [k Hk].
    destruct (Forall2_lookup_r _ _ _ _ _ Himgs Hk) as (e & _ & w & h & Hsz & _ & ->).
    done.
  - done.
  - clear -Hsorted. induction Hsorted as [|i l Hl IH Hall]; constructor; [|done].
    intros Hin. rewrite Forall_forall in Hall. specialize (Hall i Hin). lia.
Qed.

Lemma coco_images_table_witness :
  ∃ listing doc,
    dirs (sample_fs2 ["a.png"; "notes.txt"; "a.jpg"]) !! "imgs" = Some listing ∧
    files (convert_to_coco "imgs" "anns" "out.json" ["cat"]
             (sample_fs2 ["a.png"; "notes.txt"; "a.jpg"])).2 !! "out.json" =
      Some (JsonFile doc) ∧
    ImageInfo.file_name <$> Coco.images doc =
      filter (λ f, accepted f = true) listing ∧
    Forall (λ im, size_at (sample_fs2 ["a.png"; "notes.txt"; "a.jpg"])
                    (Path.join "imgs" [ImageInfo.file_name im]) =
                  Some (ImageInfo.width im, ImageInfo.height im))
           (Coco.images doc) ∧
    StronglySorted Z.lt (ImageInfo.id <$> Coco.images doc) ∧
    NoDup (ImageInfo.id <$> Coco.images doc).
Proof.
  apply (coco_images_table "imgs" "anns" "out.json" ["cat"]
           (sample_fs2 ["a.png"; "notes.txt"; "a.jpg"])).
  vm_compute. reflexivity.
Defined.

Lemma elem_of_boxes_inv fs ann_dir entries b :
  b ∈ boxes fs ann_dir entries →
  ∃ e, e ∈ processed entries ∧ b.1 = e.1 ∧ b.2 ∈ parsed fs ann_dir e.2.
Proof.
  unfold boxes. intros (e & Hb & He)%list_elem_of_bind.
  apply list_elem_of_fmap in Hb as (x & -> & Hx). by exists e.
Qed.

(** X2: every annotation of the written document refers to entries that
    exist: its image id is the id of an image of the [images] table, the one
    whose annotation file held the box, and its category id is the 1-based
    position of an entry of the [categories] table that bears the class name
    of the box. *)
Theorem coco_annotation_refs img_dir ann_dir output_path class_names fs fs' :
  convert_to_coco img_dir ann_dir output_path class_names fs = (Ok (), fs') →
  ∃ listing doc,
    dirs fs !! img_dir = Some listing ∧
    files fs' !! output_path = Some (JsonFile doc) ∧
    Forall2 (λ b a,
               (∃ im, im ∈ Coco.images doc ∧
                      ImageInfo.id im = CocoAnn.image_id a ∧
                      b.2 ∈ parsed fs ann_dir (ImageInfo.file_name im)) ∧
               (∃ k c, CocoAnn.category_id a = (1 + Z.of_nat k)%Z ∧
                       Coco.categories doc !! k = Some c ∧
                       Category.id c = CocoAnn.category_id a ∧
                       Obj.name b.2 = Some (Category.name c)))
            (boxes fs ann_dir (enumerate listing 1)) (Coco.annotations doc).
Proof.
  intros (listing & imgs & new & Hdir & -> & Himgs & Hnew & _)%convert_to_coco_Ok.
  exists listing, (Coco.mk [] [] (categories_of class_names) imgs new).
  split_and!; [done|apply lookup_written|simpl].
  apply Forall2_same_length_lookup. split; [by eapply Forall2_length|].
  intros j b a Hb Ha.
  destruct (Forall2_lookup_l _ _ _ _ _ Hnew Hb) as (a' & Ha' & Hmk).
  assert (a' = a) as -> by congruence.
  destruct (coco_annotation_id _ _ _ _ _ Hmk) as [_ Himg]. split.
  - assert (b ∈ boxes fs ann_dir (enumerate listing 1)) as Hin
      by (by eapply list_elem_of_lookup_2).
    apply elem_of_boxes_inv in Hin as (e & He & Hb1 & Hb2).
    apply list_elem_of_lookup_1 in He as [k Hk].
    destruct (Forall2_lookup_l _ _ _ _ _ Himgs Hk) as (im & Him & w & h & _ & _ & ->).
    eexists. split_and!; [by eapply list_elem_of_lookup_2|simpl; congruence|done].
  - unfold coco_annotation in Hmk.
    apply result_bind_Ok in Hmk
      as (c & (x & k & Hx & Hk & ->)%category_lookup_Ok & [= <-]).
    apply rindex_lookup in Hk.
    exists k, (Category.mk (1 + Z.of_nat k) x "none"). simpl.
    split_and!; [done| |done..].
    rewrite categories_of_imap, list_lookup_imap, Hk. done.
Qed.

Lemma coco_annotation_refs_witness :
  ∃ listing doc,
    dirs (sample_fs2 ["a.png"; "a.jpg"]) !! "imgs" = Some listing ∧
    files (convert_to_coco "imgs" "anns" "out.json" ["dog"; "cat"]
             (sample_fs2 ["a.png"; "a.jpg"])).2 !! "out.json" = Some (JsonFile doc) ∧
    Forall2 (λ b a,
               (∃ im, im ∈ Coco.images doc ∧
                      ImageInfo.id im = CocoAnn.image_id a ∧
                      b.2 ∈ parsed (sample_fs2 ["a.png"; "a.jpg"]) "anns"
                            (ImageInfo.file_name im)) ∧
               (∃ k c, CocoAnn.category_id a = (1 + Z.of_nat k)%Z ∧
                       Coco.categories doc !! k = Some c ∧
                       Category.id c = CocoAnn.category_id a ∧
                       Obj.name b.2 = Some (Category.name c)))
            (boxes (sample_fs2 ["a.png"; "a.jpg"]) "anns" (enumerate listing 1))
            (Coco.annotations doc).
Proof.
  apply (coco_annotation_refs "imgs" "anns" "out.json" ["dog"; "cat"]
           (sample_fs2 ["a.png"; "a.jpg"])).
  vm_compute. reflexivity.
Defined.


Lemma coco_loop_ext img_dir ann_dir cids entries coco n fs fs2 :
  Forall (λ e, accepted e.2 = true →
               files fs2 !! Path.join img_dir [e.2] =
                 files fs !! Path.join img_dir [e.2] ∧
               files fs2 !! ann_path_of ann_dir (stem e.2) =
                 files fs !! ann_path_of ann_dir (stem e.2)) entries →
  (coco_loop img_dir ann_dir cids entries coco n fs2).1 =
  (coco_loop img_dir ann_dir cids entries coco n fs).1.
Proof.
  intros Hall. revert coco n.
  induction Hall as [|[i f] rest Hf _ IH]; intros coco n; [done|].
  cbn [coco_loop]. destruct (accepted f) eqn:Hacc; cbn [negb]; [|apply IH].
  destruct (Hf Hacc) as [Himg Hann]. simpl in Himg, Hann.
  rewrite !M_bind_unfold. unfold Image_open_size. rewrite Himg.
  destruct (files fs !! Path.join img_dir [f]) as [[w h| | | |]|]; try done.
  rewrite !M_bind_unfold. unfold parse_halcon_annotation.
  rewrite !M_bind_unfold. unfold ET_parse. rewrite Hann.
  destruct (files fs !! ann_path_of ann_dir (stem f)) as [[| root | | |]|]; try done.
  unfold lift. destruct (parse_root root) as [anns|e]; [|done].
  rewrite !M_bind_unfold.
  destruct (coco_annotations_loop cids i anns _ n) as [[coco1 n1]|e]; [|done].
  apply IH.
Qed.



(** X5: the bbox of a written annotation loses nothing: the corners of the source
    box are bbox[0], bbox[1], bbox[0] + bbox[2] and bbox[1] + bbox[3].  Width,
    height and area are written as computed, negative when the corners are
    in the wrong order; the area is not negative for a box with x1 <= x2 and
    y1 <= y2. *)
Theorem coco_bbox_corners img_dir ann_dir output_path class_names fs fs' :
  convert_to_coco img_dir ann_dir output_path class_names fs = (Ok (), fs') →
  ∃ listing doc,
    dirs fs !! img_dir = Some listing ∧
    files fs' !! output_path = Some (JsonFile doc) ∧
    Forall2 (λ b a,
               let box := Obj.bndbox b.2 in
               ∃ x y w h,
                 CocoAnn.bbox a = [x; y; w; h] ∧
                 box = BndBox.mk x y (x + w) (y + h) ∧
                 CocoAnn.area a = (w * h)%Z ∧
                 ((w < 0)%Z ↔ (BndBox.x2 box < BndBox.x1 box)%Z) ∧
                 ((h < 0)%Z ↔ (BndBox.y2 box < BndBox.y1 box)%Z) ∧
                 ((BndBox.x1 box ≤ BndBox.x2 box)%Z →
                  (BndBox.y1 box ≤ BndBox.y2 box)%Z → (0 ≤ CocoAnn.area a)%Z))
            (boxes fs ann_dir (enumerate listing 1)) (Coco.annotations doc).
Proof.
  intros (listing & imgs & new & Hdir & -> & _ & Hnew & _)%convert_to_coco_Ok.
  exists listing, (Coco.mk [] [] (categories_of class_names) imgs new).
  split_and!; [done|apply lookup_written|simpl].
  eapply Forall2_impl; [exact Hnew|].
  intros [i [name [a1 b1 a2 b2]]] a. unfold coco_annotation. simpl.
  intros (c & _ & [= <-])%result_bind_Ok. simpl.
  exists a1, b1, (a2 - a1)%Z, (b2 - b1)%Z.
  split_and!; [done|f_equal; lia|done|lia|lia|nia].
Qed.

Lemma coco_bbox_corners_witness :
  ∃ listing doc,
    dirs (sample_fs ["a.jpg"]) !! "imgs" = Some listing ∧
    files (convert_to_coco "imgs" "anns" "out.json" ["cat"]
             (sample_fs ["a.jpg"])).2 !! "out.json" = Some (JsonFile doc) ∧
    Forall2 (λ b a,
               let box := Obj.bndbox b.2 in
               ∃ x y w h,
                 CocoAnn.bbox a = [x; y; w; h] ∧
                 box = BndBox.mk x y (x + w) (y + h) ∧
                 CocoAnn.area a = (w * h)%Z ∧
                 ((w < 0)%Z ↔ (BndBox.x2 box < BndBox.x1 box)%Z) ∧
                 ((h < 0)%Z ↔ (BndBox.y2 box < BndBox.y1 box)%Z) ∧
                 ((BndBox.x1 box ≤ BndBox.x2 box)%Z →
                  (BndBox.y1 box ≤ BndBox.y2 box)%Z → (0 ≤ CocoAnn.area a)%Z))
            (boxes (sample_fs ["a.jpg"]) "anns" (enumerate listing 1))
            (Coco.annotations doc).
Proof.
  apply (coco_bbox_corners "imgs" "anns" "out.json" ["cat"] (sample_fs ["a.jpg"])).
  vm_compute. reflexivity.
Defined.

Lemma boxes_image_ids_sorted fs ann_dir (l : list string) (start : Z) :
  Forall (λ i, start ≤ i)%Z (boxes fs ann_dir (enumerate l start)).*1 ∧
  StronglySorted Z.le (boxes fs ann_dir (enumerate l start)).*1.
Proof.
  revert start. induction l as [|f r IH]; intros start.
  { split; constructor. }
  cbn [enumerate]. rewrite boxes_cons.
  destruct (IH (start + 1)%Z) as [Hge Hsorted].
  assert (Forall (λ i, start ≤ i)%Z (boxes fs ann_dir (enumerate r (start + 1))).*1)
    as Hge'.
  { eapply Forall_impl; [exact Hge|]. intros i Hi. simpl in Hi. lia. }
  destruct (accepted f); [|done].
  rewrite fmap_app, <-list_fmap_compose.
  assert (∀ anns : list Obj.t,
            (fst ∘ pair start) <$> anns = replicate (length anns) start) as Hrep.
  { induction anns as [|b anns IHanns]; [done|]. simpl. by rewrite <-IHanns. }
  rewrite Hrep. split.
  - apply Forall_app. split; [|done].
    apply Forall_replicate. lia.
  - apply StronglySorted_app. split_and!; [| |done].
    + intros x y [-> _]%elem_of_replicate Hy.
      rewrite Forall_forall in Hge'. by apply Hge'.
    + induction (length (parsed fs ann_dir f)) as [|n IHn]; simpl; constructor;
        [done|]. apply Forall_replicate. lia.
Qed.

(** X6: the annotations of the written document are grouped by image, in
    the order of the images: their image ids never decrease along the
    list. *)
Theorem coco_annotations_grouped img_dir ann_dir output_path class_names fs fs' :
  convert_to_coco img_dir ann_dir output_path class_names fs = (Ok (), fs') →
  ∃ doc,
    files fs' !! output_path = Some (JsonFile doc) ∧
    StronglySorted Z.le (CocoAnn.image_id <$> Coco.annotations doc).
Proof.
  intros (listing & imgs & new & Hdir & -> & _ & Hnew & _)%convert_to_coco_Ok.
  exists (Coco.mk [] [] (categories_of class_names) imgs new).
  split; [apply lookup_written|simpl].
  assert (CocoAnn.image_id <$> new = (boxes fs ann_dir (enumerate listing 1)).*1)
    as ->.
  { symmetry. apply Forall2_fmap_eq. eapply Forall2_impl; [exact Hnew|].
    intros b a Hmk. by apply coco_annotation_id in Hmk as [_ ->]. }
  apply boxes_image_ids_sorted.
Qed.

Lemma coco_annotations_grouped_witness :
  ∃ doc,
    files (convert_to_coco "imgs" "anns" "out.json" ["cat"]
             (sample_fs2 ["a.png"; "notes.txt"; "a.jpg"])).2 !! "out.json" =
      Some (JsonFile doc) ∧
    StronglySorted Z.le (CocoAnn.image_id <$> Coco.annotations doc).
Proof.
  apply (coco_annotations_grouped "imgs" "anns" "out.json" ["cat"]
           (sample_fs2 ["a.png"; "notes.txt"; "a.jpg"])).
  vm_compute. reflexivity.
Defined.

Lemma anns_at_length fs path anns :
  anns_at fs path = Some anns → length anns = length (objects_at fs path).
Proof.
  unfold anns_at, objects_at.
  destruct (files fs !! path) as [[| root | | |]|]; try done.
  destruct (parse_root root) as [l|e] eqn:Hp; [|done]. intros [= <-].
  unfold parse_root in Hp. apply parse_objects_Ok in Hp as (new & -> & Hall).
  simpl. symmetry. by eapply Forall2_length.
Qed.

Lemma bind_parsed_length fs ann_dir (pl : list (Z * string)) :
  Forall (λ e, is_Some (anns_at fs (ann_path_of ann_dir (stem e.2)))) pl →
  length (pl ≫= λ e, (e.1,.) <$> parsed fs ann_dir e.2) =
  sum_list ((λ f, length (objects_at fs (ann_path_of ann_dir (stem f)))) <$> pl.*2).
Proof.
  induction 1 as [|e rest [anns He] _ IH]; [done|].
  rewrite bind_cons, length_app, length_fmap, IH. simpl. f_equal.
  unfold parsed. rewrite He. simpl. by apply anns_at_length.
Qed.

(** X7: the written document has as many annotations as there are [object]
    children of the roots of the annotation files of the accepted images,
    taken together. *)
Theorem coco_annotation_count img_dir ann_dir output_path class_names fs fs' :
  convert_to_coco img_dir ann_dir output_path class_names fs = (Ok (), fs') →
  ∃ listing doc,
    dirs fs !! img_dir = Some listing ∧
    files fs' !! output_path = Some (JsonFile doc) ∧
    length (Coco.annotations doc) =
      sum_list ((λ f, length (objects_at fs (ann_path_of ann_dir (stem f)))) <$>
                filter (λ f, accepted f = true) listing).
Proof.
  intros (listing & imgs & new & Hdir & -> & Himgs & Hnew & _)%convert_to_coco_Ok.
  exists listing, (Coco.mk [] [] (categories_of class_names) imgs new).
  split_and!; [done|apply lookup_written|simpl].
  rewrite <-(Forall2_length _ _ _ Hnew).
  rewrite <-processed_enumerate_snd with (start := 1%Z).
  assert (Forall (λ e, is_Some (anns_at fs (ann_path_of ann_dir (stem e.2))))
                 (processed (enumerate listing 1))) as Hall.
  { apply Forall_forall. intros e (k & Hk)%list_elem_of_lookup_1.
    by destruct (Forall2_lookup_l _ _ _ _ _ Himgs Hk) as (im & _ & w & h & _ & ? & _). }
  unfold boxes. by apply bind_parsed_length.
Qed.

Lemma coco_annotation_count_witness :
  ∃ listing doc,
    dirs (sample_fs2 ["a.png"; "notes.txt"; "a.jpg"]) !! "imgs" = Some listing ∧
    files (convert_to_coco "imgs" "anns" "out.json" ["cat"]
             (sample_fs2 ["a.png"; "notes.txt"; "a.jpg"])).2 !! "out.json" =
      Some (JsonFile doc) ∧
    length (Coco.annotations doc) =
      sum_list ((λ f, length (objects_at (sample_fs2 ["a.png"; "notes.txt"; "a.jpg"])
                                (ann_path_of "anns" (stem f)))) <$>
                filter (λ f, accepted f = true) listing).
Proof.
  apply (coco_annotation_count "imgs" "anns" "out.json" ["cat"]
           (sample_fs2 ["a.png"; "notes.txt"; "a.jpg"])).
  vm_compute. reflexivity.
Defined.

(** ** The files the VOC export writes and leaves *)

Lemma voc_image_Raise img_dir ann_dir output_dir f fs e fs2 :
  voc_image img_dir ann_dir output_dir f fs = (Raise e, fs2) → fs2 = fs.
Proof.
  unfold voc_image.
  intros [H|([w h] & s1 & [_ ->]%Image_open_size_Ok & H)]%M_bind_Raise.
  { pose proof (reads_only_Image_open_size (Path.join img_dir [f]) fs) as Hro.
    by rewrite H in Hro. }
  apply M_bind_Raise in H
    as [H|(anns & s1 & [_ ->]%parse_halcon_annotation_Ok & H)].
  { pose proof (reads_only_parse_halcon_annotation
                  (ann_path_of ann_dir (stem f)) fs) as Hro.
    by rewrite H in Hro. }
  by apply write_file_Raise in H as (_ & _ & ->).
Qed.

Lemma voc_loop_app img_dir ann_dir output_dir pre rest ids fs :
  voc_loop img_dir ann_dir output_dir (pre ++ rest) ids fs =
  match voc_loop img_dir ann_dir output_dir pre ids fs with
  | (Ok ids1, fs1) => voc_loop img_dir ann_dir output_dir rest ids1 fs1
  | (Raise e, fs1) => (Raise e, fs1)
  end.
Proof.
  revert ids fs. induction pre as [|g pre IH]; intros ids fs; [done|].
  cbn [app voc_loop]. destruct (accepted g); cbn [negb]; [|apply IH].
  rewrite !M_bind_unfold.
  destruct (voc_image img_dir ann_dir output_dir g fs) as [[[]|e] fs1]; [|done].
  apply IH.
Qed.

(** Whatever its outcome, the loop changes only XML files of accepted
    entries. *)
Lemma voc_loop_frame img_dir ann_dir output_dir listing ids fs :
  let fs' := (voc_loop img_dir ann_dir output_dir listing ids fs).2 in
  (∀ p, (∀ g, g ∈ listing → accepted g = true →
              p ≠ voc_xml_path output_dir (stem g)) →
        files fs' !! p = files fs !! p) ∧
  dirs fs' = dirs fs ∧ readonly fs' = readonly fs.
Proof.
  revert ids fs. induction listing as [|g rest IH]; intros ids fs; [done|].
  cbn [voc_loop]. destruct (accepted g) eqn:Hacc; cbn [negb].
  - rewrite M_bind_unfold.
    destruct (voc_image img_dir ann_dir output_dir g fs) as [[[]|e] fs1] eqn:Hstep.
    + apply voc_image_Ok in Hstep as (w & h & anns & _ & _ & _ & ->).
      destruct (IH (ids ++ [stem g])
                  (mkfs (<[voc_xml_path output_dir (stem g) :=
                            XmlFile (voc_tree g (Path.join img_dir [g]) w h anns)]>
                           (files fs)) (dirs fs) (readonly fs)))
        as (Hframe & Hdirs & Hro).
      split_and!; [|done..]. intros p Hp. rewrite Hframe.
      * simpl. apply lookup_insert_ne. symmetry.
        apply Hp; [by apply elem_of_cons; left|done].
      * intros g' Hg' Hacc'. apply Hp; [by apply elem_of_cons; right|done].
    + apply voc_image_Raise in Hstep as ->. done.
  - destruct (IH ids fs) as (Hframe & Hdirs & Hro). split_and!; [|done..].
    intros p Hp. apply Hframe.
    intros g' Hg' Hacc'. apply Hp; [by apply elem_of_cons; right|done].
Qed.

(** X8: the VOC export is not atomic.  When the images listed before
    [f] are processed and the body of the loop raises on [f], the export
    raises the same exception and the state it leaves is the one reached
    after those images: their XML files stay written, and trainval.txt is
    not. *)
Theorem voc_partial_output img_dir ann_dir output_dir class_names fs
    pre f post ids fs1 e fs2 :
  dirs fs !! img_dir = Some (pre ++ f :: post) →
  voc_loop img_dir ann_dir output_dir pre [] fs = (Ok ids, fs1) →
  accepted f = true →
  voc_image img_dir ann_dir output_dir f fs1 = (Raise e, fs2) →
  convert_to_voc img_dir ann_dir output_dir class_names fs = (Raise e, fs1).
Proof.
  intros Hdir Hpre Hacc Hstep.
  pose proof (voc_image_Raise _ _ _ _ _ _ _ Hstep) as ->.
  unfold convert_to_voc, makedirs.
  do 3 (rewrite M_bind_unfold; cbn [mret M_ret]).
  rewrite M_bind_unfold, (proj2 (listdir_Ok _ _ _ _) (conj Hdir eq_refl)).
  rewrite M_bind_unfold, voc_loop_app, Hpre.
  cbn [voc_loop]. rewrite Hacc. cbn [negb]. by rewrite M_bind_unfold, Hstep.
Qed.

Lemma voc_partial_output_witness :
  ∃ fs1,
    convert_to_voc "imgs" "anns" "voc" ["cat"] (sample_fs2 ["a.jpg"; "b.jpg"; "a.png"]) =
      (Raise FileNotFoundError, fs1) ∧
    is_Some (files fs1 !! "voc/Annotations/a.xml") ∧
    files fs1 !! "voc/ImageSets/Main/trainval.txt" = None.
Proof.
  eexists. split_and!.
  - apply (voc_partial_output "imgs" "anns" "voc" ["cat"]
             (sample_fs2 ["a.jpg"; "b.jpg"; "a.png"]) ["a.jpg"] "b.jpg" ["a.png"]
             ["a"] _ FileNotFoundError
             (voc_loop "imgs" "anns" "voc" ["a.jpg"] []
                (sample_fs2 ["a.jpg"; "b.jpg"; "a.png"])).2).
    + vm_compute. reflexivity.
    + vm_compute. reflexivity.
    + vm_compute. reflexivity.
    + vm_compute. reflexivity.
  - vm_compute. eexists. reflexivity.
  - vm_compute. reflexivity.
Defined.

Lemma convert_to_voc_frame img_dir ann_dir output_dir class_names fs :
  let fs' := (convert_to_voc img_dir ann_dir output_dir class_names fs).2 in
  (∀ p, p ≠ voc_trainval_path output_dir →
        (∀ listing g, dirs fs !! img_dir = Some listing → g ∈ listing →
                      accepted g = true → p ≠ voc_xml_path output_dir (stem g)) →
        files fs' !! p = files fs !! p) ∧
  dirs fs' = dirs fs ∧ readonly fs' = readonly fs.
Proof.
  unfold convert_to_voc, makedirs.
  do 3 (rewrite M_bind_unfold; cbn [mret M_ret]).
  rewrite M_bind_unfold. unfold listdir.
  destruct (dirs fs !! img_dir) as [listing|] eqn:Hdir; [|done].
  rewrite M_bind_unfold.
  pose proof (voc_loop_frame img_dir ann_dir output_dir listing [] fs) as Hframe.
  destruct (voc_loop img_dir ann_dir output_dir listing [] fs) as [[ids|e] fs1];
    simpl in Hframe; destruct Hframe as (Hframe & Hdirs & Hro).
  - unfold write_file. case_decide; simpl.
    + split_and!; [|done..]. intros p _ Hp. apply Hframe.
      intros g Hg Hacc. by apply (Hp listing g).
    + split_and!; [|done..]. intros p Hne Hp.
      rewrite lookup_insert_ne by done. apply Hframe.
      intros g Hg Hacc. by apply (Hp listing g).
  - simpl. split_and!; [|done..]. intros p _ Hp. apply Hframe.
    intros g Hg Hacc. by apply (Hp listing g).
Qed.


(** X10: a VOC export that raises has not written trainval.txt (directory
    entries being plain names). *)
Theorem voc_no_trainval_on_error img_dir ann_dir output_dir class_names fs
    listing e fs' :
  dirs fs !! img_dir = Some listing →
  Forall (λ g, Str.contains "/" g = false) listing →
  convert_to_voc img_dir ann_dir output_dir class_names fs = (Raise e, fs') →
  files fs' !! voc_trainval_path output_dir =
  files fs !! voc_trainval_path output_dir.
Proof.
  intros Hdir Hnames. unfold convert_to_voc, makedirs.
  do 3 (rewrite M_bind_unfold; cbn [mret M_ret]).
  rewrite M_bind_unfold, (proj2 (listdir_Ok _ _ _ _) (conj Hdir eq_refl)).
  rewrite M_bind_unfold.
  pose proof (voc_loop_frame img_dir ann_dir output_dir listing [] fs) as Hframe.
  destruct (voc_loop img_dir ann_dir output_dir listing [] fs) as [[ids|e1] fs1];
    simpl in Hframe; destruct Hframe as (Hframe & _).
  - intros (_ & _ & ->)%write_file_Raise. apply Hframe.
    intros g Hg _ Heq. symmetry in Heq. revert Heq. apply voc_xml_path_trainval.
    apply stem_no_slash. rewrite Forall_forall in Hnames. by apply Hnames.
  - intros [= _ <-]. apply Hframe.
    intros g Hg _ Heq. symmetry in Heq. revert Heq. apply voc_xml_path_trainval.
    apply stem_no_slash. rewrite Forall_forall in Hnames. by apply Hnames.
Qed.

Lemma voc_no_trainval_on_error_witness :
  files (convert_to_voc "imgs" "anns" "voc" ["cat"]
           (sample_fs2 ["a.jpg"; "b.jpg"])).2 !! voc_trainval_path "voc" =
  files (sample_fs2 ["a.jpg"; "b.jpg"]) !! voc_trainval_path "voc".
Proof.
  apply (voc_no_trainval_on_error "imgs" "anns" "voc" ["cat"]
           (sample_fs2 ["a.jpg"; "b.jpg"]) ["a.jpg"; "b.jpg"] FileNotFoundError).
  - vm_compute. reflexivity.
  - repeat constructor.
  - vm_compute. reflexivity.
Defined.

Lemma voc_jpeg_path_relative output_dir x :
  Str.startswith x "/" = false →
  Path.join output_dir ["JPEGImages"; x] =
  dir_prefix output_dir +:+ "JPEGImages/" +:+ x.
Proof.
  intros Hx. unfold Path.join. simpl.
  rewrite (join2_relative output_dir) by done.
  unfold Path.join2 at 1. rewrite Hx.
  change "JPEGImages" with (String "J" "PEGImages").
  rewrite (endswith_app_cons _ "J" "PEGImages" "/") by done.
  rewrite bool_decide_eq_false_2.
  - simpl. by rewrite app_assoc_str.
  - intros H. apply (f_equal String.length) in H.
    rewrite app_length_str in H. simpl in H. lia.
Qed.

(** X11: the VOC export copies no image: whatever its outcome, no file of the
    [JPEGImages] directory it creates is written (directory entries being
    plain names). *)
Theorem voc_copies_no_image img_dir ann_dir output_dir class_names fs listing x :
  dirs fs !! img_dir = Some listing →
  Forall (λ g, Str.contains "/" g = false) listing →
  Str.startswith x "/" = false →
  files (convert_to_voc img_dir ann_dir output_dir class_names fs).2 !!
    Path.join output_dir ["JPEGImages"; x] =
  files fs !! Path.join output_dir ["JPEGImages"; x].
Proof.
  intros Hdir Hnames Hx.
  destruct (convert_to_voc_frame img_dir ann_dir output_dir class_names fs)
    as (Hframe & _).
  apply Hframe.
  - rewrite voc_jpeg_path_relative, voc_trainval_path_relative by done.
    intros H%String.app_inj. discriminate H.
  - intros listing' g Hdir' Hg Hacc.
    assert (listing' = listing) as -> by congruence.
    rewrite voc_jpeg_path_relative, voc_xml_path_relative; [|done..| |done].
    + intros H%String.app_inj. discriminate H.
    + apply stem_no_slash. rewrite Forall_forall in Hnames. by apply Hnames.
Qed.

Lemma voc_copies_no_image_witness :
  files (convert_to_voc "imgs" "anns" "voc" ["cat"]
           (sample_fs2 ["a.jpg"; "a.png"])).2 !!
    Path.join "voc" ["JPEGImages"; "a.jpg"] =
  files (sample_fs2 ["a.jpg"; "a.png"]) !! Path.join "voc" ["JPEGImages"; "a.jpg"].
Proof.
  apply (voc_copies_no_image "imgs" "anns" "voc" ["cat"]
           (sample_fs2 ["a.jpg"; "a.png"]) ["a.jpg"; "a.png"] "a.jpg").
  - vm_compute. reflexivity.
  - repeat constructor.
  - vm_compute. reflexivity.
Defined.

Lemma voc_tree_findall_ne img_file img_path w h anns t :
  t ≠ "object" →
  ET.findall (voc_tree img_file img_path w h anns) t =
  ET.findall (voc_header img_file img_path w h) t.
Proof.
  intros Ht. unfold voc_tree, voc_add_objects.
  generalize (voc_header img_file img_path w h). intros root.
  revert root. induction anns as [|b rest IH]; intros root; [done|].
  simpl. rewrite IH, findall_SubElement.
  rewrite decide_False; [by rewrite app_nil_r|]. simpl. congruence.
Qed.

Lemma voc_tree_find img_file img_path w h anns t path :
  t ≠ "object" →
  ET.find (voc_tree img_file img_path w h anns) (t :: path) =
  ET.find (voc_header img_file img_path w h) (t :: path).
Proof.
  intros Ht. unfold ET.find, ET.iterfind. simpl.
  by rewrite !app_nil_r, voc_tree_findall_ne.
Qed.

Lemma voc_add_objects_tag root anns :
  ET.tag (voc_add_objects root anns) = ET.tag root.
Proof.
  unfold voc_add_objects. revert root.
  induction anns as [|b rest IH]; intros root; [done|].
  simpl. by rewrite IH.
Qed.

(** X12: the XML the loop body writes for an image has root [annotation] and
    records folder VOC, the file name, the path of the image, the database
    Unknown, the width and height read from the image as decimal text and
    depth 3; it has one [object] block per parsed annotation, each with pose
    Unspecified, truncated 0 and difficult 0. *)
Theorem voc_xml_header img_dir ann_dir output_dir f fs fs1 :
  voc_image img_dir ann_dir output_dir f fs = (Ok (), fs1) →
  ∃ root w h anns,
    files fs1 !! voc_xml_path output_dir (stem f) = Some (XmlFile root) ∧
    size_at fs (Path.join img_dir [f]) = Some (w, h) ∧
    anns_at fs (ann_path_of ann_dir (stem f)) = Some anns ∧
    ET.tag root = "annotation" ∧
    ET.find root ["folder"] ≫= ET.text = Some "VOC" ∧
    ET.find root ["filename"] ≫= ET.text = Some f ∧
    ET.find root ["path"] ≫= ET.text = Some (Path.join img_dir [f]) ∧
    ET.find root ["source"; "database"] ≫= ET.text = Some "Unknown" ∧
    ET.find root ["size"; "width"] ≫= ET.text = Some (Int.to_string w) ∧
    ET.find root ["size"; "height"] ≫= ET.text = Some (Int.to_string h) ∧
    ET.find root ["size"; "depth"] ≫= ET.text = Some "3" ∧
    length (ET.findall root "object") = length anns ∧
    Forall (λ obj,
              ET.find obj ["pose"] ≫= ET.text = Some "Unspecified" ∧
              ET.find obj ["truncated"] ≫= ET.text = Some "0" ∧
              ET.find obj ["difficult"] ≫= ET.text = Some "0")
           (ET.findall root "object").
Proof.
  intros (w & h & anns & Hsz & Hanns & _ & ->)%voc_image_Ok.
  exists (voc_tree f (Path.join img_dir [f]) w h anns), w, h, anns.
  split_and!; [apply lookup_written|done|done|..].
  - unfold voc_tree. by rewrite voc_add_objects_tag.
  - by rewrite voc_tree_find.
  - by rewrite voc_tree_find.
  - by rewrite voc_tree_find.
  - by rewrite voc_tree_find.
  - by rewrite voc_tree_find.
  - by rewrite voc_tree_find.
  - by rewrite voc_tree_find.
  - by rewrite voc_tree_objects, length_fmap.
  - rewrite voc_tree_objects. apply Forall_fmap, Forall_forall. by intros b _.
Qed.

Lemma voc_xml_header_witness :
  ∃ root w h anns,
    files (voc_image "imgs" "anns" "voc" "a.jpg" (sample_fs ["a.jpg"])).2 !!
      voc_xml_path "voc" (stem "a.jpg") = Some (XmlFile root) ∧
    size_at (sample_fs ["a.jpg"]) (Path.join "imgs" ["a.jpg"]) = Some (w, h) ∧
    anns_at (sample_fs ["a.jpg"]) (ann_path_of "anns" (stem "a.jpg")) = Some anns ∧
    ET.tag root = "annotation" ∧
    ET.find root ["folder"] ≫= ET.text = Some "VOC" ∧
    ET.find root ["filename"] ≫= ET.text = Some "a.jpg" ∧
    ET.find root ["path"] ≫= ET.text = Some (Path.join "imgs" ["a.jpg"]) ∧
    ET.find root ["source"; "database"] ≫= ET.text = Some "Unknown" ∧
    ET.find root ["size"; "width"] ≫= ET.text = Some (Int.to_string w) ∧
    ET.find root ["size"; "height"] ≫= ET.text = Some (Int.to_string h) ∧
    ET.find root ["size"; "depth"] ≫= ET.text = Some "3" ∧
    length (ET.findall root "object") = length anns ∧
    Forall (λ obj,
              ET.find obj ["pose"] ≫= ET.text = Some "Unspecified" ∧
              ET.find obj ["truncated"] ≫= ET.text = Some "0" ∧
              ET.find obj ["difficult"] ≫= ET.text = Some "0")
           (ET.findall root "object").
Proof.
  apply (voc_xml_header "imgs" "anns" "voc" "a.jpg" (sample_fs ["a.jpg"])).
  vm_compute. reflexivity.
Defined.

(** X13: the XML the VOC export writes is not input for the parser: parsing
    a written tree raises [AttributeError] as soon as the tree has an
    [object] block (its corners are named xmin, ymin, xmax, ymax, not x1, y1,
    x2, y2), and returns no annotation when it has none. *)
Theorem voc_tree_not_halcon img_file img_path w h anns :
  parse_root (voc_tree img_file img_path w h anns) =
  match anns with
  | [] => Ok []
  | _ :: _ => Raise AttributeError
  end.
Proof.
  unfold parse_root. rewrite voc_tree_objects.
  destruct anns as [|b rest]; reflexivity.
Qed.

(** ** The errors of the parser *)

(** X14: when the parser raises it has changed nothing, and the exception
    tells the cause: [FileNotFoundError] for a missing file, [ParseError]
    for a file that is not XML, and [AttributeError], [TypeError] or
    [ValueError] for an XML file with an [object] node that lacks a field. *)
Theorem parse_halcon_annotation_errors ann_path fs e fs' :
  parse_halcon_annotation ann_path fs = (Raise e, fs') →
  fs' = fs ∧
  ((files fs !! ann_path = None ∧ e = FileNotFoundError) ∨
   (∃ c, files fs !! ann_path = Some c ∧ (∀ root, c ≠ XmlFile root) ∧
         e = ParseError) ∨
   (∃ root, files fs !! ann_path = Some (XmlFile root) ∧
            Exists lacks_field (ET.findall root "object") ∧
            (e = AttributeError ∨ e = TypeError ∨ e = ValueError))).
Proof.
  intros Hrun. split.
  { pose proof (reads_only_parse_halcon_annotation ann_path fs) as Hro.
    by rewrite Hrun in Hro. }
  revert Hrun. unfold parse_halcon_annotation. rewrite M_bind_unfold.
  unfold ET_parse, lift.
  destruct (files fs !! ann_path) as [[w h|root|s|d|]|] eqn:Hfile.
  - intros [= <- _]. right. left. by eexists.
  - intros [= Hp _]. right. right. exists root. split_and!; [done|..].
    + by eapply parse_objects_Raise.
    + by eapply parse_objects_exn.
  - intros [= <- _]. right. left. by eexists.
  - intros [= <- _]. right. left. by eexists.
  - intros [= <- _]. right. left. by eexists.
  - intros [= <- _]. by left.
Qed.

Lemma parse_halcon_annotation_errors_witness :
  (parse_halcon_annotation "anns/b.xml" (sample_fs ["a.jpg"])).2 = sample_fs ["a.jpg"] ∧
  ((files (sample_fs ["a.jpg"]) !! "anns/b.xml" = None ∧
    FileNotFoundError = FileNotFoundError) ∨
   (∃ c, files (sample_fs ["a.jpg"]) !! "anns/b.xml" = Some c ∧
         (∀ root, c ≠ XmlFile root) ∧ FileNotFoundError = ParseError) ∨
   (∃ root, files (sample_fs ["a.jpg"]) !! "anns/b.xml" = Some (XmlFile root) ∧
            Exists lacks_field (ET.findall root "object") ∧
            (FileNotFoundError = AttributeError ∨ FileNotFoundError = TypeError ∨
             FileNotFoundError = ValueError))).
Proof.
  apply (parse_halcon_annotation_errors "anns/b.xml" (sample_fs ["a.jpg"])
           FileNotFoundError).
  vm_compute. reflexivity.
Defined.

Lemma obj_info_total obj : ¬ lacks_field obj → ∃ info, obj_info obj = Ok info.
Proof.
  intros Hok. destruct (obj_info obj) as [info|e] eqn:H; [by exists info|].
  by apply obj_info_Raise in H.
Qed.

Lemma parse_objects_first_error pre bad post acc e :
  Forall (λ o, ¬ lacks_field o) pre → obj_info bad = Raise e →
  parse_objects (pre ++ bad :: post) acc = Raise e.
Proof.
  intros Hpre Hbad. revert acc.
  induction Hpre as [|o pre Ho _ IH]; intros acc; simpl.
  - by rewrite Hbad.
  - destruct (obj_info_total o Ho) as [info ->]. apply IH.
Qed.

(** X15: the parser fails fast: the exception it raises is the one raised
    for the first [object] node, in document order, that lacks a field; the
    nodes after it are not looked at. *)
Theorem parse_first_error root pre bad post e :
  ET.findall root "object" = pre ++ bad :: post →
  Forall (λ o, ¬ lacks_field o) pre →
  obj_info bad = Raise e →
  parse_root root = Raise e.
Proof.
  intros Hobjs Hpre Hbad. unfold parse_root. rewrite Hobjs.
  by apply parse_objects_first_error.
Qed.

Lemma parse_first_error_witness :
  parse_root
    (Elem "annotation" None
       [halcon_object "cat" "10" "10" "60" "40";
        halcon_object "dog" "1" "2" "x" "4";
        Elem "object" None []]) = Raise ValueError.
Proof.
  apply (parse_first_error _ [halcon_object "cat" "10" "10" "60" "40"]
           (halcon_object "dog" "1" "2" "x" "4") [Elem "object" None []]).
  - reflexivity.
  - constructor; [|constructor].
    intros [H|[H|[H|[H|H]]]]; vm_compute in H; discriminate H.
  - reflexivity.
Defined.

(** ** The image id of an accepted file *)

Lemma rfind_from_none s c i : Str.contains c s = false → Str.rfind_from s c i = (-1)%Z.
Proof.
  revert i. induction s as [|a r IH]; intros i; [done|]. simpl.
  intros [Ha Hr]%orb_false_elim. by rewrite (IH _ Hr), Ha.
Qed.

Lemma rfind_from_last a c b i :
  (0 ≤ i)%Z → Str.contains c b = false →
  Str.rfind_from (a +:+ String c b) c i = (i + Z.of_nat (String.length a))%Z.
Proof.
  intros Hi Hb. revert i Hi. induction a as [|x a IH]; intros i Hi.
  - rewrite app_nil_l_str. simpl. rewrite (rfind_from_none _ _ _ Hb). simpl.
    rewrite bool_decide_eq_true_2 by done. lia.
  - rewrite app_cons. simpl Str.rfind_from. rewrite IH by lia.
    destruct (0 <=? i + 1 + Z.of_nat (String.length a))%Z eqn:Hk.
    + simpl. lia.
    + apply Z.leb_gt in Hk. lia.
Qed.

Lemma take_app_length a t : Str.take (String.length a) (a +:+ t) = a.
Proof. induction a as [|x a IH]; [by destruct t|]. rewrite app_cons. simpl. by rewrite IH. Qed.

Lemma drop_app_length a t : Str.drop (String.length a) (a +:+ t) = t.
Proof. induction a as [|x a IH]; [by destruct t|]. rewrite app_cons. simpl. by rewrite IH. Qed.

Lemma skip_dots_app a c t :
  Path.skip_dots (String.length a) (a +:+ String c t) = negb (only_dots a).
Proof.
  induction a as [|x a IH]; [done|]. rewrite app_cons. simpl.
  destruct (bool_decide (x = "."%char)); [by rewrite IH|done].
Qed.

(** [os.path.splitext] on a name without [/] whose last dot is given. *)
Lemma splitext_last_dot a b :
  Str.contains "/" (a +:+ String "." b) = false → Str.contains "." b = false →
  Path.splitext (a +:+ String "." b) =
  if only_dots a then (a +:+ String "." b, "") else (a, String "." b).
Proof.
  intros Hsep Hdot. unfold Path.splitext, Str.rfind.
  rewrite (rfind_from_none _ _ _ Hsep), rfind_from_last by done.
  assert ((-1 <? 0 + Z.of_nat (String.length a))%Z = true) as ->
    by (apply Z.ltb_lt; lia).
  replace (Z.to_nat (0 + Z.of_nat (String.length a) - (-1 + 1)))
    with (String.length a) by lia.
  replace (Z.to_nat (0 + Z.of_nat (String.length a)))
    with (String.length a) by lia.
  change (Z.to_nat (-1 + 1)) with 0%nat. change (Str.drop 0 ?s) with s.
  rewrite skip_dots_app, take_app_length, drop_app_length.
  by destruct (only_dots a).
Qed.

Lemma endswith_spec s suf : Str.endswith s suf = true → ∃ p, s = p +:+ suf.
Proof.
  induction s as [|c r IH]; simpl.
  - rewrite orb_false_r. intros ->%bool_decide_eq_true. by exists "".
  - intros [->%bool_decide_eq_true|[p ->]%IH]%orb_true_iff.
    + by exists "".
    + by exists (String c p).
Qed.

Lemma lower_app_inv f p q :
  Str.lower f = p +:+ q →
  ∃ a e, f = a +:+ e ∧ Str.lower a = p ∧ Str.lower e = q.
Proof.
  revert f. induction p as [|x p IH]; intros f H.
  - by exists "", f.
  - destruct f as [|c r]; [done|]. rewrite app_cons in H. simpl in H.
    injection H as Hc Hr. destruct (IH _ Hr) as (a & e & -> & Ha & He).
    exists (String c a), e. split_and!; [done| |done]. simpl. by rewrite Hc, Ha.
Qed.

Lemma ascii_lower_dot c : Str.ascii_lower c = "."%char ↔ c = "."%char.
Proof. destruct c as [[] [] [] [] [] [] [] []]; by vm_compute. Qed.

Lemma lower_no_dot s t :
  Str.lower s = t → Str.contains "." t = false → Str.contains "." s = false.
Proof.
  revert t. induction s as [|c r IH]; intros t; [done|]. simpl. intros <-. simpl.
  intros [Hc Hr]%orb_false_elim. rewrite (IH _ eq_refl Hr), orb_false_r.
  apply bool_decide_eq_false. apply bool_decide_eq_false in Hc.
  by rewrite <-ascii_lower_dot.
Qed.

(** A string whose lower case is a dot followed by letters starts with a dot
    and has no other. *)
Lemma lower_ext_inv e t :
  Str.lower e = String "." t → Str.contains "." t = false →
  ∃ b, e = String "." b ∧ Str.contains "." b = false.
Proof.
  destruct e as [|c b]; [done|]. simpl. intros [= Hc Ht] Hno.
  apply (proj1 (ascii_lower_dot c)) in Hc. subst c. exists b. split; [done|]. by eapply lower_no_dot.
Qed.

Lemma accepted_ext f :
  accepted f = true →
  ∃ a b, f = a +:+ String "." b ∧ Str.contains "." b = false ∧
         (Str.lower (String "." b) = ".png" ∨ Str.lower (String "." b) = ".jpg" ∨
          Str.lower (String "." b) = ".jpeg").
Proof.
  unfold accepted. cbv zeta.
  intros [[H|H]%orb_true_iff|H]%orb_true_iff;
    apply endswith_spec in H as [p H];
    apply lower_app_inv in H as (a & e & -> & _ & He);
    pose proof He as He';
    apply lower_ext_inv in He' as (b & -> & Hb); try done;
    exists a, b; split_and!; auto.
Qed.

(** X16: the image id of an accepted file.  An accepted name without [/]
    is [a] followed by an extension that reads .png, .jpg or .jpeg in lower
    case, and its id ([os.path.splitext(name)[0]]) is [a]; unless [a] is
    empty or all dots, when the id is the whole name.  The id is never
    empty. *)
Theorem stem_accepted f :
  accepted f = true → Str.contains "/" f = false →
  ∃ a ext,
    f = a +:+ ext ∧
    (Str.lower ext = ".png" ∨ Str.lower ext = ".jpg" ∨ Str.lower ext = ".jpeg") ∧
    stem f = (if only_dots a then f else a) ∧
    stem f ≠ "".
Proof.
  intros (a & b & -> & Hb & Hext)%accepted_ext Hsep.
  exists a, (String "." b). unfold stem.
  rewrite splitext_last_dot by done.
  split_and!; [done..| |].
  - by destruct (only_dots a).
  - destruct (only_dots a) eqn:Ha; simpl.
    + by destruct a.
    + by destruct a.
Qed.

Lemma stem_accepted_witness :
  ∃ a ext,
    "scan.v2.JPG" = a +:+ ext ∧
    (Str.lower ext = ".png" ∨ Str.lower ext = ".jpg" ∨ Str.lower ext = ".jpeg") ∧
    stem "scan.v2.JPG" = (if only_dots a then "scan.v2.JPG" else a) ∧
    stem "scan.v2.JPG" ≠ "".
Proof.
  apply (stem_accepted "scan.v2.JPG"); vm_compute; reflexivity.
Defined.

Example stem_examples :
  stem "scan.v2.JPG" = "scan.v2" ∧ stem ".png" = ".png" ∧ stem "...jpeg" = "...jpeg".
Proof. repeat split. Qed.

(** ** The script run as a program *)

Lemma img_path_relative img_dir f :
  Str.contains "/" f = false → Path.join img_dir [f] = dir_prefix img_dir +:+ f.
Proof. intros Hf. unfold Path.join. simpl. by apply join2_relative, startswith_slash. Qed.

Lemma ann_path_of_relative ann_dir s :
  Str.contains "/" s = false →
  ann_path_of ann_dir s = dir_prefix ann_dir +:+ s +:+ ".xml".
Proof.
  intros Hs. unfold ann_path_of, Path.join. simpl.
  apply join2_relative, startswith_slash.
  rewrite contains_app, Hs. done.
Qed.

(** The COCO export gives the same result and the same document on two
    states that agree on what it reads. *)
Lemma convert_to_coco_ext img_dir ann_dir output_path class_names fs fs1 :
  dirs fs1 !! img_dir = dirs fs !! img_dir →
  readonly fs1 = readonly fs →
  files fs1 !! output_path = files fs !! output_path →
  (∀ listing f, dirs fs !! img_dir = Some listing → f ∈ listing →
                accepted f = true →
                files fs1 !! Path.join img_dir [f] =
                  files fs !! Path.join img_dir [f] ∧
                files fs1 !! ann_path_of ann_dir (stem f) =
                  files fs !! ann_path_of ann_dir (stem f)) →
  (convert_to_coco img_dir ann_dir output_path class_names fs1).1 =
    (convert_to_coco img_dir ann_dir output_path class_names fs).1 ∧
  files (convert_to_coco img_dir ann_dir output_path class_names fs1).2 !! output_path =
    files (convert_to_coco img_dir ann_dir output_path class_names fs).2 !! output_path.
Proof.
  intros Hdirs Hro Hout Hread. unfold convert_to_coco. cbv zeta.
  rewrite !M_bind_unfold. unfold listdir. rewrite Hdirs.
  destruct (dirs fs !! img_dir) as [listing|] eqn:Hdir; [|done].
  rewrite !M_bind_unfold.
  match goal with
  | |- context [coco_loop ?i ?a ?c ?es ?co ?n fs] =>
      pose proof (coco_loop_ext i a c es co n fs fs1) as Hext;
      pose proof (reads_only_coco_loop i a c es co n fs) as Hr;
      pose proof (reads_only_coco_loop i a c es co n fs1) as Hr1;
      destruct (coco_loop i a c es co n fs) as [r s] eqn:Hloop;
      destruct (coco_loop i a c es co n fs1) as [r1 s1] eqn:Hloop1
  end.
  simpl in Hr, Hr1, Hext. subst s s1. rewrite Hext.
  - destruct r as [[coco n]|e]; [|done].
    unfold write_file. rewrite Hro. case_decide; [done|].
    simpl. by rewrite !lookup_insert_eq.
  - apply Forall_forall. intros [i f] (k & Hk & _)%elem_of_enumerate Hacc.
    apply (Hread listing f); [done| |done]. by eapply list_elem_of_lookup_2.
Qed.

(** What the VOC export of [main] writes is none of the files the COCO
    export of [main] reads or writes. *)
Lemma main_paths_apart f g :
  Str.contains "/" f = false → Str.contains "/" g = false →
  let xml := voc_xml_path VOC_OUTPUT_DIR (stem g) in
  let trainval := voc_trainval_path VOC_OUTPUT_DIR in
  Path.join HALCON_IMG_DIR [f] ≠ xml ∧
  Path.join HALCON_IMG_DIR [f] ≠ trainval ∧
  ann_path_of HALCON_ANN_DIR (stem f) ≠ xml ∧
  ann_path_of HALCON_ANN_DIR (stem f) ≠ trainval ∧
  COCO_OUTPUT_PATH ≠ xml ∧ COCO_OUTPUT_PATH ≠ trainval.
Proof.
  intros Hf Hg. cbv zeta.
  rewrite img_path_relative, voc_trainval_path_relative by done.
  rewrite voc_xml_path_relative, ann_path_of_relative by by apply stem_no_slash.
  split_and!; intros H; vm_compute in H; discriminate H.
Qed.

Lemma main_voc_frame fs listing p :
  dirs fs !! HALCON_IMG_DIR = Some listing →
  p ≠ voc_trainval_path VOC_OUTPUT_DIR →
  (∀ g, g ∈ listing → p ≠ voc_xml_path VOC_OUTPUT_DIR (stem g)) →
  files (convert_to_voc HALCON_IMG_DIR HALCON_ANN_DIR VOC_OUTPUT_DIR CLASS_NAMES fs).2 !! p =
  files fs !! p.
Proof.
  intros Hdir Htv Hxml.
  destruct (convert_to_voc_frame HALCON_IMG_DIR HALCON_ANN_DIR VOC_OUTPUT_DIR
              CLASS_NAMES fs) as (Hframe & _).
  apply Hframe; [done|]. intros listing' g Hdir' Hg _.
  assert (listing' = listing) as -> by congruence. by apply Hxml.
Qed.

(** X17: when the VOC export of [main] raises, [main] raises the same
    exception, the COCO export is not run and the COCO file is left as it
    was (directory entries being plain names). *)
Theorem main_stops_at_voc_error fs listing e fs1 :
  dirs fs !! HALCON_IMG_DIR = Some listing →
  Forall (λ g, Str.contains "/" g = false) listing →
  convert_to_voc HALCON_IMG_DIR HALCON_ANN_DIR VOC_OUTPUT_DIR CLASS_NAMES fs =
    (Raise e, fs1) →
  main fs = (Raise e, fs1) ∧
  files fs1 !! COCO_OUTPUT_PATH = files fs !! COCO_OUTPUT_PATH.
Proof.
  intros Hdir Hnames Hvoc. split.
  - unfold main. by rewrite M_bind_unfold, Hvoc.
  - pose proof (main_voc_frame fs listing COCO_OUTPUT_PATH Hdir) as Hframe.
    rewrite Hvoc in Hframe. apply Hframe.
    + by apply (main_paths_apart "" "").
    + intros g Hg. rewrite Forall_forall in Hnames.
      by apply (main_paths_apart "" g), Hnames.
Qed.

Lemma main_stops_at_voc_error_witness :
  main (main_fs ["a.jpg"; "b.jpg"]) =
    (Raise FileNotFoundError,
     (convert_to_voc HALCON_IMG_DIR HALCON_ANN_DIR VOC_OUTPUT_DIR CLASS_NAMES
        (main_fs ["a.jpg"; "b.jpg"])).2) ∧
  files (convert_to_voc HALCON_IMG_DIR HALCON_ANN_DIR VOC_OUTPUT_DIR CLASS_NAMES
           (main_fs ["a.jpg"; "b.jpg"])).2 !! COCO_OUTPUT_PATH =
  files (main_fs ["a.jpg"; "b.jpg"]) !! COCO_OUTPUT_PATH.
Proof.
  apply (main_stops_at_voc_error (main_fs ["a.jpg"; "b.jpg"]) ["a.jpg"; "b.jpg"]).
  - vm_compute. reflexivity.
  - repeat constructor.
  - vm_compute. reflexivity.
Defined.

(** X18: the two exports of [main] do not interact.  When the VOC export
    returns, [main] ends as the COCO export does on the state the VOC export
    left, and that is the outcome and the COCO document the COCO export
    gives on the initial state: what the VOC export wrote is not read
    (directory entries being plain names). *)
Theorem main_exports_independent fs listing fs1 :
  dirs fs !! HALCON_IMG_DIR = Some listing →
  Forall (λ g, Str.contains "/" g = false) listing →
  convert_to_voc HALCON_IMG_DIR HALCON_ANN_DIR VOC_OUTPUT_DIR CLASS_NAMES fs =
    (Ok (), fs1) →
  main fs =
    convert_to_coco HALCON_IMG_DIR HALCON_ANN_DIR COCO_OUTPUT_PATH CLASS_NAMES fs1 ∧
  (main fs).1 =
    (convert_to_coco HALCON_IMG_DIR HALCON_ANN_DIR COCO_OUTPUT_PATH CLASS_NAMES fs).1 ∧
  files (main fs).2 !! COCO_OUTPUT_PATH =
    files (convert_to_coco HALCON_IMG_DIR HALCON_ANN_DIR COCO_OUTPUT_PATH
             CLASS_NAMES fs).2 !! COCO_OUTPUT_PATH.
Proof.
  intros Hdir Hnames Hvoc.
  assert (main fs = convert_to_coco HALCON_IMG_DIR HALCON_ANN_DIR COCO_OUTPUT_PATH
                      CLASS_NAMES fs1) as Hmain.
  { unfold main. by rewrite M_bind_unfold, Hvoc. }
  split; [done|]. rewrite Hmain.
  assert (∀ p, p ≠ voc_trainval_path VOC_OUTPUT_DIR →
               (∀ g, g ∈ listing → p ≠ voc_xml_path VOC_OUTPUT_DIR (stem g)) →
               files fs1 !! p = files fs !! p) as Hframe.
  { intros p. pose proof (main_voc_frame fs listing p Hdir) as H.
    by rewrite Hvoc in H. }
  destruct (convert_to_voc_frame HALCON_IMG_DIR HALCON_ANN_DIR VOC_OUTPUT_DIR
              CLASS_NAMES fs) as (_ & Hdirs & Hro).
  rewrite Hvoc in Hdirs, Hro. simpl in Hdirs, Hro.
  rewrite Forall_forall in Hnames.
  apply convert_to_coco_ext.
  - by rewrite Hdirs.
  - done.
  - apply Hframe.
    + by apply (main_paths_apart "" "").
    + intros g Hg. by apply (main_paths_apart "" g), Hnames.
  - intros listing' f Hdir' Hf Hacc.
    assert (listing' = listing) as -> by congruence.
    pose proof (Hnames f Hf) as Hfn. split; apply Hframe.
    + by apply (main_paths_apart f f).
    + intros g Hg. by apply (main_paths_apart f g), Hnames.
    + by apply (main_paths_apart f f).
    + intros g Hg. by apply (main_paths_apart f g), Hnames.
Qed.

Lemma main_exports_independent_witness :
  main (main_fs ["a.jpg"]) =
    convert_to_coco HALCON_IMG_DIR HALCON_ANN_DIR COCO_OUTPUT_PATH CLASS_NAMES
      (convert_to_voc HALCON_IMG_DIR HALCON_ANN_DIR VOC_OUTPUT_DIR CLASS_NAMES
         (main_fs ["a.jpg"])).2 ∧
  (main (main_fs ["a.jpg"])).1 =
    (convert_to_coco HALCON_IMG_DIR HALCON_ANN_DIR COCO_OUTPUT_PATH CLASS_NAMES
       (main_fs ["a.jpg"])).1 ∧
  files (main (main_fs ["a.jpg"])).2 !! COCO_OUTPUT_PATH =
    files (convert_to_coco HALCON_IMG_DIR HALCON_ANN_DIR COCO_OUTPUT_PATH
             CLASS_NAMES (main_fs ["a.jpg"])).2 !! COCO_OUTPUT_PATH.
Proof.
  apply (main_exports_independent (main_fs ["a.jpg"]) ["a.jpg"]).
  - vm_compute. reflexivity.
  - repeat constructor.
  - vm_compute. reflexivity.
Defined.

Example main_sample :
  (main (main_fs ["a.jpg"])).1 = Ok () ∧
  files (main (main_fs ["a.jpg"])).2 !! "/path/to/voc_dataset/ImageSets/Main/trainval.txt" =
    Some (TextFile "a") ∧
  is_Some (files (main (main_fs ["a.jpg"])).2 !! "/path/to/voc_dataset/Annotations/a.xml") ∧
  is_Some (files (main (main_fs ["a.jpg"])).2 !! "/path/to/coco/annotations.json").
Proof. split_and!; vm_compute; try reflexivity; by eexists. Qed.

(** ** When the exports return *)





Lemma coco_loop_skip img_dir ann_dir cids (l : list string) start coco n fs :
  Forall (λ f, accepted f = false) l →
  coco_loop img_dir ann_dir cids (enumerate l start) coco n fs = (Ok (coco, n), fs).
Proof.
  intros Hall. revert start. induction Hall as [|f r Hf _ IH]; intros start; [done|].
  simpl. rewrite Hf. simpl. apply IH.
Qed.

Lemma voc_loop_skip img_dir ann_dir output_dir (l : list string) ids fs :
  Forall (λ f, accepted f = false) l →
  voc_loop img_dir ann_dir output_dir l ids fs = (Ok ids, fs).
Proof.
  induction 1 as [|f r Hf _ IH]; [done|]. simpl. rewrite Hf. simpl. apply IH.
Qed.

(** X20: with nothing to convert (no directory entry is accepted, as in
    an empty directory) both exports return without opening any file: the
    COCO export writes a document with the category table and no image and no
    annotation, the VOC export writes an empty trainval.txt and no XML
    file. *)
Theorem nothing_accepted img_dir ann_dir out class_names fs listing :
  dirs fs !! img_dir = Some listing →
  Forall (λ f, accepted f = false) listing →
  (out ∉ readonly fs →
   convert_to_coco img_dir ann_dir out class_names fs =
   (Ok (), mkfs (<[out := JsonFile (Coco.mk [] [] (categories_of class_names) [] [])]>
                   (files fs)) (dirs fs) (readonly fs))) ∧
  (voc_trainval_path out ∉ readonly fs →
   convert_to_voc img_dir ann_dir out class_names fs =
   (Ok (), mkfs (<[voc_trainval_path out := TextFile ""]> (files fs))
                (dirs fs) (readonly fs))).
Proof.
  intros Hdir Hall. split; intros Hw.
  - unfold convert_to_coco. cbv zeta.
    rewrite M_bind_unfold, (proj2 (listdir_Ok _ _ _ _) (conj Hdir eq_refl)).
    rewrite M_bind_unfold, coco_loop_skip by done.
    by apply write_file_Ok.
  - unfold convert_to_voc, makedirs.
    do 3 (rewrite M_bind_unfold; cbn [mret M_ret]).
    rewrite M_bind_unfold, (proj2 (listdir_Ok _ _ _ _) (conj Hdir eq_refl)).
    rewrite M_bind_unfold, voc_loop_skip by done.
    by apply write_file_Ok.
Qed.

Lemma nothing_accepted_witness :
  convert_to_coco "imgs" "anns" "voc" ["cat"] (sample_fs ["notes.txt"; "a.xml"]) =
    (Ok (), mkfs (<["voc" := JsonFile (Coco.mk [] [] (categories_of ["cat"]) [] [])]>
                    (files (sample_fs ["notes.txt"; "a.xml"])))
                 (dirs (sample_fs ["notes.txt"; "a.xml"]))
                 (readonly (sample_fs ["notes.txt"; "a.xml"]))) ∧
  convert_to_voc "imgs" "anns" "voc" ["cat"] (sample_fs ["notes.txt"; "a.xml"]) =
    (Ok (), mkfs (<[voc_trainval_path "voc" := TextFile ""]>
                    (files (sample_fs ["notes.txt"; "a.xml"])))
                 (dirs (sample_fs ["notes.txt"; "a.xml"]))
                 (readonly (sample_fs ["notes.txt"; "a.xml"]))).
Proof.
  destruct (nothing_accepted "imgs" "anns" "voc" ["cat"]
              (sample_fs ["notes.txt"; "a.xml"]) ["notes.txt"; "a.xml"])
    as [Hcoco Hvoc].
  - vm_compute. reflexivity.
  - repeat constructor.
  - split; [apply Hcoco|apply Hvoc]; intros H; vm_compute in H; discriminate H.
Defined.
